(** * RemoteControl: phones as game controllers

    A verification development for the RemoteControl repository.

    - [Multiplexer], [Resolver], [SessionManager], [Server]: the Remote
      Input Session Engine (the Python backend), after its specification.
    - [Editor]: the React component of
      [frontend/src/components/LayoutEditor.jsx].
    - [Url], [Json], [JoinScreen], [RemoteControl]: the join links of
      [JoinScreen.jsx] and the remote client of [RemoteControl.jsx].

    Part I holds the definitions, Part II the theorems, one [...Facts]
    module per component.

    Strings are sequences of bytes (UTF-8); JS objects used as dictionaries
    are finite maps; React state is a record, and every event handler is a
    function of the state of the render it closes over. *)

From Stdlib Require Import ZArith List Ascii String Bool Lia DecimalString
  DecimalPos.
From stdpp Require Import gmap strings list fin_maps.

Local Open Scope string_scope.
Local Open Scope list_scope.

(** * Part I: definitions *)

(** ** Layout items *)

(** An item of a layout, as [onAddItem] builds it:
    [{ i: uuidv4(), x: 0, y: 0, icon: '', keybinds: { default: '' } }].
    Items that come back from the layout store are JSON and may lack [icon]
    or [keybinds] (the code reads [item.keybinds?.default]), hence the
    options.  Positions are numbers; they are kept as integers here. *)
Record Item : Type := mkItem {
  i : string;
  x : Z;
  y : Z;
  icon : option string;
  keybinds : option (gmap string string)
}.

#[global] Instance Item_eq_dec : EqDecision Item.
Proof. solve_decision. Defined.

(** JS truthiness of a string: [''] is falsy. *)
Definition truthy (s : string) : bool := negb (bool_decide (s = "")).

(** JS truthiness of a value that is a string, [null] or [undefined]. *)
Definition truthy_opt (s : option string) : bool :=
  match s with
  | Some v => truthy v
  | None => false
  end.

(** [a || b] on strings where [a] may be [undefined]. *)
Definition or_else (a : option string) (b : string) : string :=
  match a with
  | Some v => if truthy v then v else b
  | None => b
  end.

(** [item.keybinds?.[token]]. *)
Definition keybind_of (it : Item) (token : string) : option string :=
  match keybinds it with
  | Some kb => kb !! token
  | None => None
  end.

(** ** The virtual key multiplexer *)

Module Multiplexer.

(** A device call [setKeyState(keyId, pressed)]. *)
Definition call : Type := string * bool.

(** Modelled from the spec: the backend module that owns the process-wide
    reference counts is not among the sources; section 3 ("Virtual key
    state": a mapping from key identifier to a reference count >= 0) and
    section 4.2 are followed.  [device] is the recorded trace of calls to
    the device capability, oldest first. *)
Record t : Type := Mux {
  counts : gmap string nat;
  device : list call
}.

Definition init : t := Mux ∅ [].

Definition count (m : t) (k : string) : nat := default 0 (counts m !! k).

(** Modelled from the spec: [press(keyId)] of the missing backend (section
    4.2): increment the count; on the transition 0 -> 1 call the device to
    set the key down. *)
Definition press (k : string) (m : t) : t :=
  let c := count m k in
  Mux (<[k := S c]> (counts m))
      (match c with
       | O => device m ++ [(k, true)]
       | S _ => device m
       end).

(** Modelled from the spec: [release(keyId)] of the missing backend
    (section 4.2): decrement floored at 0; a release at count 0 is a no-op;
    on the transition to exactly 0 call the device to set the key up. *)
Definition release (k : string) (m : t) : t :=
  match count m k with
  | O => m
  | S c =>
      Mux (<[k := c]> (counts m))
          (match c with
           | O => device m ++ [(k, false)]
           | S _ => device m
           end)
  end.

(** Modelled from the spec: [forceReleaseAll(keyIds)] of the missing
    backend (section 4.2): exactly one [release] per given key. *)
Definition forceReleaseAll (ks : list string) (m : t) : t :=
  foldl (fun acc k => release k acc) m ks.

(** A call of one of the two operations, as issued by some session. *)
Inductive op : Type :=
| Press (k : string)
| Release (k : string).

Definition apply (o : op) (m : t) : t :=
  match o with
  | Press k => press k m
  | Release k => release k m
  end.

Definition run (ops : list op) (m : t) : t :=
  foldl (fun acc o => apply o acc) m ops.

(** The calls of a trace that concern key [k]. *)
Definition calls_for (k : string) (cs : list call) : list call :=
  filter (fun c => c.1 = k) cs.

(** Physical state of key [k] after a trace of device calls: the last call
    for [k] decides; a key never touched is up. *)
Definition is_down (k : string) (cs : list call) : bool :=
  match last (calls_for k cs) with
  | Some c => c.2
  | None => false
  end.

(** The device calls an operation on key [k] is expected to cause when the
    count of [k] is [c] beforehand. *)
Definition expected_calls (o : op) (c : nat) : list call :=
  match o, c with
  | Press k, O => [(k, true)]
  | Release k, 1 => [(k, false)]
  | _, _ => []
  end.

Definition op_key (o : op) : string :=
  match o with
  | Press k => k
  | Release k => k
  end.

(** An independent simulation of one key: a bare counter started at [c],
    and the device calls for [k] that the operations of [ops] should cause
    (the check of section 8). *)
Fixpoint simulate (k : string) (c : nat) (ops : list op) : nat * list call :=
  match ops with
  | [] => (c, [])
  | o :: rest =>
      if decide (op_key o = k) then
        let c' := match o with
                  | Press _ => S c
                  | Release _ => pred c
                  end in
        ((simulate k c' rest).1, expected_calls o c ++ (simulate k c' rest).2)
      else simulate k c rest
  end.

(** The physical state of every key agrees with its count: down on the
    device iff the count is positive (the invariant of section 3). *)
Definition consistent (m : t) : Prop :=
  ∀ k, is_down k (device m) = bool_decide (0 < count m k).

End Multiplexer.

(** ** The keybind resolver *)

Module Resolver.

Inductive result : Type :=
| Key (k : string)
| NotFound
| NoKeybind.

(** The entry of the keybind table for [token], when present and non-empty. *)
Definition entry (it : Item) (token : string) : option string :=
  match keybind_of it token with
  | Some v => if truthy v then Some v else None
  | None => None
  end.

(** Modelled from the spec: [resolve(layout, itemId, playerToken)] of the
    missing backend (section 4.1): [NotFound] for an unknown item, the
    player's own non-empty entry, else the [default] entry, else
    [NoKeybind]. *)
Definition resolve (layout : list Item) (itemId playerToken : string) : result :=
  match find (fun it => bool_decide (i it = itemId)) layout with
  | None => NotFound
  | Some it =>
      match entry it playerToken with
      | Some k => Key k
      | None =>
          match entry it "default" with
          | Some k => Key k
          | None => NoKeybind
          end
      end
  end.

(** Modelled from the spec: the player-scope token of player number [n]
    (section 3): [player1], [player2], ... *)
Definition token_of (n : nat) : string :=
  "player" +:+ NilEmpty.string_of_uint (Nat.to_uint n).

End Resolver.

(** ** The session manager *)

Module SessionManager.

Inductive phase : Type :=
| Connecting
| Active
| Closing
| Closed.

#[global] Instance phase_eq_dec : EqDecision phase.
Proof. solve_decision. Defined.

(** Modelled from the spec: the Session of section 3 (player number, layout
    snapshot, held-keys set) with the state of the machine of section 4.3;
    the connection handle is the key under which the session is stored. *)
Record session : Type := Session {
  state : phase;
  player : nat;
  layout : list Item;
  held : gset string
}.

(** Modelled from the spec: the session manager of section 2, which is not
    among the sources: the multiplexer it routes to and one session per
    connection. *)
Record t : Type := Manager {
  mux : Multiplexer.t;
  sessions : gmap nat session
}.

Definition init : t := Manager Multiplexer.init ∅.

Inductive action : Type :=
| Down
| Up.

(** What reaches the session manager.  [player = None] is a missing or
    non-numeric player number; [act = None] is an action other than [down]
    and [up]. *)
Inductive event : Type :=
| Connect (conn : nat) (player : option nat) (layoutName : string)
| Message (conn : nat) (itemId : string) (act : option action)
| Malformed (conn : nat)
| Disconnect (conn : nat).

(** Modelled from the spec: state [Connecting] of section 4.3.  The
    connection is rejected without a player number or when the layout store
    has no layout of that name; otherwise the session becomes [Active] with
    its own snapshot and nothing held. *)
Definition connect (store : gmap string (list Item)) (conn : nat)
    (p : option nat) (layoutName : string) (m : t) : t :=
  match sessions m !! conn, p, store !! layoutName with
  | None, Some n, Some items =>
      Manager (mux m) (<[conn := Session Active n items ∅]> (sessions m))
  | _, _, _ => m
  end.

(** Modelled from the spec: [down] in state [Active] (section 4.3): "resolve
    the key; if resolved, record it in the session's held-keys set
    (idempotent - adding an already-held key is harmless) and call [press]".
    The sentence can be read in two ways when the session already holds the
    key (the same button twice, or two of its buttons bound to one key):
    the [down] as a whole is the idempotent no-op the parenthesis speaks of
    ([repress = false]), or only the insertion into the set is and [press]
    is called once more ([repress = true]).  The held-keys set is "the set
    of key identifiers this session currently has in the pressed state (from
    the multiplexer's point of view)" (section 3), and the cleanup performs
    one [release] per key of that set: that fits the first reading, the
    one the engine is studied under; the second is kept for comparison. *)
Definition on_down (repress : bool) (conn : nat) (s : session)
    (itemId : string) (m : t) : t :=
  match Resolver.resolve (layout s) itemId (Resolver.token_of (player s)) with
  | Resolver.Key k =>
      if negb repress && bool_decide (k ∈ held s) then m
      else
        Manager (Multiplexer.press k (mux m))
                (<[conn := Session (state s) (player s) (layout s) ({[k]} ∪ held s)]>
                   (sessions m))
  | _ => m
  end.

(** Modelled from the spec: [up] in state [Active] (section 4.3): resolve;
    if resolved and held, remove the key and call [release]; otherwise no
    call is made. *)
Definition on_up (conn : nat) (s : session) (itemId : string) (m : t) : t :=
  match Resolver.resolve (layout s) itemId (Resolver.token_of (player s)) with
  | Resolver.Key k =>
      if decide (k ∈ held s) then
        Manager (Multiplexer.release k (mux m))
                (<[conn := Session (state s) (player s) (layout s) (held s ∖ {[k]})]>
                   (sessions m))
      else m
  | _ => m
  end.

(** Modelled from the spec: states [Closing] and [Closed] of section 4.3:
    [forceReleaseAll] on the held-keys set, then the set is cleared and the
    session is closed. *)
Definition close (conn : nat) (s : session) (m : t) : t :=
  Manager (Multiplexer.forceReleaseAll (elements (held s)) (mux m))
          (<[conn := Session Closed (player s) (layout s) ∅]> (sessions m)).

(** The session of a connection when it is [Active]. *)
Definition active (m : t) (conn : nat) : option session :=
  match sessions m !! conn with
  | Some s => if decide (state s = Active) then Some s else None
  | None => None
  end.

(** Modelled from the spec: the routing of section 4.3.  Events are taken
    one at a time; only an [Active] session processes messages; malformed
    messages are dropped; a closed session processes nothing. *)
Definition step (repress : bool) (store : gmap string (list Item))
    (ev : event) (m : t) : t :=
  match ev with
  | Connect conn p name => connect store conn p name m
  | Message conn itemId act =>
      match active m conn, act with
      | Some s, Some Down => on_down repress conn s itemId m
      | Some s, Some Up => on_up conn s itemId m
      | _, _ => m
      end
  | Malformed _ => m
  | Disconnect conn =>
      match active m conn with
      | Some s => close conn s m
      | None => m
      end
  end.

Definition run (repress : bool) (store : gmap string (list Item))
    (evs : list event) (m : t) : t :=
  foldl (fun acc ev => step repress store ev acc) m evs.

(** Number of sessions that hold key [k]. *)
Definition holders (k : string) (ss : gmap nat session) : nat :=
  size (filter (fun p : nat * session => k ∈ held p.2) ss).

(** A layout with two buttons bound to the same key. *)
Definition pad : list Item :=
  [mkItem "b1" 0 0 None (Some {["default" := "a"]});
   mkItem "b2" 0 0 None (Some {["default" := "a"]})].



(** Disconnect safety for connection [conn] after the events [evs]: once
    the cleanup of the session has run, no key it held is still pressed on
    its account: the count of each such key is the number of sessions that
    still hold it, and the device agrees. *)
Definition disconnect_safe (repress : bool) (store : gmap string (list Item))
    (evs : list event) (conn : nat) : Prop :=
  let m := run repress store evs init in
  let m' := step repress store (Disconnect conn) m in
  ∀ s k, active m conn = Some s → k ∈ held s →
    Multiplexer.count (mux m') k = holders k (sessions m')
    ∧ Multiplexer.is_down k (Multiplexer.device (mux m'))
      = bool_decide (0 < holders k (sessions m')).

End SessionManager.

(** ** The layout editor (LayoutEditor.jsx) *)

Module Editor.

(** [import.meta.env.VITE_API_BASE_URL || 'http://localhost:8000']. *)
Definition API_BASE_URL (VITE_API_BASE_URL : option string) : string :=
  or_else VITE_API_BASE_URL "http://localhost:8000".

(** The own properties of the object literal [keyToIconMap]. *)
Definition keyToIconMap : gmap string string :=
  list_to_map
    [("ArrowUp", "↑"); ("ArrowDown", "↓"); ("ArrowLeft", "←");
     ("ArrowRight", "→"); ("Enter", "⏎"); (" ", "␣"); ("Shift", "⇧");
     ("Control", "⌃"); ("Alt", "⌥"); ("Meta", "⌘"); ("Escape", "⎋");
     ("Backspace", "⌫"); ("Tab", "⇥"); ("CapsLock", "⇪")].

(** The property names of [Object.prototype].  A lookup [keyToIconMap[name]]
    with one of these names finds the inherited member, a function (for
    [__proto__] the prototype object), where the map of own properties has
    nothing; the value is truthy and is not a string.  For every other name
    [keyToIconMap[name]] is [keyToIconMap !! name]. *)
Definition Object_prototype_names : list string :=
  ["constructor"; "hasOwnProperty"; "isPrototypeOf"; "propertyIsEnumerable";
   "toLocaleString"; "toString"; "valueOf"; "__proto__";
   "__defineGetter__"; "__defineSetter__"; "__lookupGetter__";
   "__lookupSetter__"].

(** Whether [keyToIconMap[name]] finds a member of [Object.prototype].  No
    key of a keyboard has such a name as its [event.key]; what is said
    about the label [keyToIconMap[event.key] || event.key] is said for the
    other names. *)
Definition inherited (name : string) : bool :=
  bool_decide (name ∈ Object_prototype_names).

(** The player-scope tokens the item-properties panel offers. *)
Definition players : list string :=
  ["default"; "player1"; "player2"; "player3"; "player4"].

(** The React state of the component: one field per [useState]. *)
Record State : Type := mkState {
  items : list Item;
  selectedItem : option string;
  savedLayouts : gmap string (list Item);
  layoutName : string;
  isBindingKey : bool;
  isSettingLabel : bool;
  bindingPlayer : string;
  dragging : bool;
  draggedItem : option string;
  dragOffset : Z * Z
}.

Definition setItems (v : list Item) (s : State) : State :=
  mkState v (selectedItem s) (savedLayouts s) (layoutName s) (isBindingKey s)
          (isSettingLabel s) (bindingPlayer s) (dragging s) (draggedItem s)
          (dragOffset s).

Definition setSelectedItem (v : option string) (s : State) : State :=
  mkState (items s) v (savedLayouts s) (layoutName s) (isBindingKey s)
          (isSettingLabel s) (bindingPlayer s) (dragging s) (draggedItem s)
          (dragOffset s).

Definition setSavedLayouts (v : gmap string (list Item)) (s : State) : State :=
  mkState (items s) (selectedItem s) v (layoutName s) (isBindingKey s)
          (isSettingLabel s) (bindingPlayer s) (dragging s) (draggedItem s)
          (dragOffset s).

Definition setLayoutName (v : string) (s : State) : State :=
  mkState (items s) (selectedItem s) (savedLayouts s) v (isBindingKey s)
          (isSettingLabel s) (bindingPlayer s) (dragging s) (draggedItem s)
          (dragOffset s).

Definition setIsBindingKey (v : bool) (s : State) : State :=
  mkState (items s) (selectedItem s) (savedLayouts s) (layoutName s) v
          (isSettingLabel s) (bindingPlayer s) (dragging s) (draggedItem s)
          (dragOffset s).

Definition setIsSettingLabel (v : bool) (s : State) : State :=
  mkState (items s) (selectedItem s) (savedLayouts s) (layoutName s)
          (isBindingKey s) v (bindingPlayer s) (dragging s) (draggedItem s)
          (dragOffset s).

Definition setBindingPlayer (v : string) (s : State) : State :=
  mkState (items s) (selectedItem s) (savedLayouts s) (layoutName s)
          (isBindingKey s) (isSettingLabel s) v (dragging s) (draggedItem s)
          (dragOffset s).

Definition setDragging (v : bool) (s : State) : State :=
  mkState (items s) (selectedItem s) (savedLayouts s) (layoutName s)
          (isBindingKey s) (isSettingLabel s) (bindingPlayer s) v
          (draggedItem s) (dragOffset s).

Definition setDraggedItem (v : option string) (s : State) : State :=
  mkState (items s) (selectedItem s) (savedLayouts s) (layoutName s)
          (isBindingKey s) (isSettingLabel s) (bindingPlayer s) (dragging s) v
          (dragOffset s).

Definition setDragOffset (v : Z * Z) (s : State) : State :=
  mkState (items s) (selectedItem s) (savedLayouts s) (layoutName s)
          (isBindingKey s) (isSettingLabel s) (bindingPlayer s) (dragging s)
          (draggedItem s) v.

(** The state of the first render. *)
Definition initial : State :=
  mkState [] None ∅ "" false false "default" false None (0, 0)%Z.

(** [item.i === id] where [id] is a string or [null]. *)
Definition is_item (id : option string) (it : Item) : bool :=
  bool_decide (Some (i it) = id).

(** [const selectedItemData = items.find(item => item.i === selectedItem)]. *)
Definition selectedItemData (r : State) : option Item :=
  find (is_item (selectedItem r)) (items r).

(** A property name with the value assigned to it: [{ ...item, [prop]: value }]
    for the properties an item has. *)
Inductive assignment : Type :=
| SetI (v : string)
| SetX (v : Z)
| SetY (v : Z)
| SetIcon (v : string)
| SetKeybinds (v : gmap string string).

Definition assign (a : assignment) (it : Item) : Item :=
  match a with
  | SetI v => mkItem v (x it) (y it) (icon it) (keybinds it)
  | SetX v => mkItem (i it) v (y it) (icon it) (keybinds it)
  | SetY v => mkItem (i it) (x it) v (icon it) (keybinds it)
  | SetIcon v => mkItem (i it) (x it) (y it) (Some v) (keybinds it)
  | SetKeybinds v => mkItem (i it) (x it) (y it) (icon it) (Some v)
  end.

(** The list [handleItemPropertyChange(prop, value)] passes to [setItems]:
    [items.map(item => item.i === selectedItem ? {...item, [prop]: value} : item)]. *)
Definition newItems (its : list Item) (sel : option string) (a : assignment)
    : list Item :=
  map (fun it => if is_item sel it then assign a it else it) its.

(** [handleItemPropertyChange] of the render [r], acting on the current
    state. *)
Definition handleItemPropertyChange (r : State) (a : assignment) (cur : State)
    : State :=
  setItems (newItems (items r) (selectedItem r) a) cur.

(** [onAddItem], with the identifier [uuidv4()] returned. *)
Definition onAddItem (r : State) (id : string) (cur : State) : State :=
  setItems (items r ++ [mkItem id 0 0 (Some "") (Some {["default" := ""]})]) cur.

(** [onRemoveItem(i)]. *)
Definition onRemoveItem (r : State) (id : string) (cur : State) : State :=
  let cur' := setItems (filter (fun it => i it ≠ id) (items r)) cur in
  if decide (selectedItem r = Some id) then setSelectedItem None cur' else cur'.

(** [handleItemClick(i)]. *)
Definition handleItemClick (id : string) (cur : State) : State :=
  setBindingPlayer "default"
    (setIsSettingLabel false (setIsBindingKey false (setSelectedItem (Some id) cur))).

(** The part of [canvasRef.current.getBoundingClientRect()] that is read. *)
Record Rect : Type := mkRect {
  left : Z;
  top : Z;
  width : Z;
  height : Z
}.

(** A mouse event: [e.button], [e.clientX], [e.clientY], and the canvas
    rectangle at that moment. *)
Record Mouse : Type := mkMouse {
  button : Z;
  clientX : Z;
  clientY : Z;
  canvasRect : Rect
}.

(** [handleDragStart(e, item)]. *)
Definition handleDragStart (e : Mouse) (it : Item) (cur : State) : State :=
  if decide (button e ≠ 0%Z) then cur
  else
    setDragOffset
      ((clientX e - left (canvasRect e) - x it)%Z,
       (clientY e - top (canvasRect e) - y it)%Z)
      (setDraggedItem (Some (i it)) (setDragging true cur)).

(** [handleDrag(e)]; the update of [items] is a functional one, on the
    current list. *)
Definition handleDrag (r : State) (e : Mouse) (cur : State) : State :=
  if negb (dragging r) then cur
  else
    let newX :=
      Z.max 0 (Z.min (clientX e - left (canvasRect e) - fst (dragOffset r))
                     (width (canvasRect e) - 80)) in
    let newY :=
      Z.max 0 (Z.min (clientY e - top (canvasRect e) - snd (dragOffset r))
                     (height (canvasRect e) - 80)) in
    setItems
      (map (fun it =>
              if is_item (draggedItem r) it
              then mkItem (i it) newX newY (icon it) (keybinds it)
              else it)
           (items cur))
      cur.

(** [handleDragEnd]. *)
Definition handleDragEnd (cur : State) : State :=
  setDraggedItem None (setDragging false cur).

(** What became of a key press on [window]. *)
Inductive outcome : Type :=
| Delivered      (* no listener branch ran: the page gets the event *)
| Intercepted    (* [event.preventDefault()] was called and the value stored *)
| Threw.         (* [event.preventDefault()] was called, then reading
                    [selectedItemData.keybinds] threw a TypeError *)

(** [handleKeyDown(event)] as defined by the effect of render [r].  The
    closure reads [isBindingKey], [isSettingLabel], [selectedItem],
    [selectedItemData], [bindingPlayer] and, through
    [handleItemPropertyChange], [items] of that render; the setters act on
    the current state [cur].  The label [keyToIconMap[event.key] ||
    event.key] is the one of a key that is not [inherited]; for an
    [inherited] name the code stores the member it found, which the icon
    of an [Item], a string, does not hold. *)
Definition handleKeyDown (r : State) (key : string) (cur : State)
    : outcome * State :=
  if isBindingKey r && truthy_opt (selectedItem r) then
    match selectedItemData r with
    | None => (Threw, cur)
    | Some d =>
        (Intercepted,
         setIsSettingLabel true
           (setIsBindingKey false
              (handleItemPropertyChange r
                 (SetKeybinds (<[bindingPlayer r := key]> (default ∅ (keybinds d))))
                 cur)))
    end
  else if isSettingLabel r && truthy_opt (selectedItem r) then
    (Intercepted,
     setIsSettingLabel false
       (handleItemPropertyChange r
          (SetIcon (or_else (keyToIconMap !! key) key)) cur))
  else (Delivered, cur).

(** The dependency list of the effect: [[isBindingKey, isSettingLabel, selectedItem]]. *)
Definition deps (s : State) : bool * bool * option string :=
  (isBindingKey s, isSettingLabel s, selectedItem s).

Inductive method : Type :=
| GET
| POST
| DELETE.

#[global] Instance method_eq_dec : EqDecision method.
Proof. solve_decision. Defined.

(** A [fetch] call. *)
Record request : Type := mkRequest {
  meth : method;
  url : string;
  body : option (list Item)
}.

(** The component between two events: the committed React state, the
    [keydown] listener registered on [window] (the render whose
    [handleKeyDown] it is), the dependencies the effect last ran with, and
    the requests sent so far, oldest first. *)
Record Editor : Type := mkEditor {
  st : State;
  listener : option State;
  effect_deps : bool * bool * option string;
  requests : list request
}.

(** What the user and the network can do to the component. *)
Inductive event : Type :=
| AddItemClick (uuid : string)
| RemoveClick (idx : nat)
| ItemMouseDown (idx : nat) (e : Mouse)
| MouseMove (e : Mouse)
| MouseUp
| SetLabelClick
| SetKeybindClick (player : string)
| KeyDown (key : string)
| LayoutNameChange (value : string)
| SaveClick
| SaveResponse (ok : bool)
| LoadSelect (name : string)
| LoadResponse (name : string) (resp : option (list Item))
| DeleteClick (confirmed : bool)
| DeleteResponse (ok : bool)
| LayoutsResponse (data : option (gmap string (list Item))).

(** The 'Delete Current Layout' button: [{layoutName && <button ...
    disabled={layoutName === "Arrows"}>}]. *)
Definition delete_button_rendered (s : State) : bool := truthy (layoutName s).

Definition delete_button_disabled (s : State) : bool :=
  bool_decide (layoutName s = "Arrows").

Section WithEnv.

Variable VITE_API_BASE_URL : option string.

Definition fetchLayouts : request :=
  mkRequest GET (API_BASE_URL VITE_API_BASE_URL +:+ "/layouts") None.

(** The handler an event runs, on the latest render [s]: the next state and
    the requests sent.  An event on an element that is not rendered (or is
    disabled) does nothing. *)
Definition handle (ev : event) (e : Editor) : State * list request :=
  let s := st e in
  match ev with
  | AddItemClick uuid => (onAddItem s uuid s, [])
  | RemoveClick idx =>
      match items s !! idx with
      | Some it => (onRemoveItem s (i it) s, [])
      | None => (s, [])
      end
  | ItemMouseDown idx m =>
      match items s !! idx with
      | Some it => (handleDragStart m it (handleItemClick (i it) s), [])
      | None => (s, [])
      end
  | MouseMove m => (handleDrag s m s, [])
  | MouseUp => (handleDragEnd s, [])
  | SetLabelClick =>
      match selectedItemData s with
      | Some _ => (setIsSettingLabel true s, [])
      | None => (s, [])
      end
  | SetKeybindClick player =>
      match selectedItemData s with
      | Some _ =>
          if bool_decide (player ∈ players)
          then (setIsBindingKey true (setBindingPlayer player s), [])
          else (s, [])
      | None => (s, [])
      end
  | KeyDown key =>
      match listener e with
      | Some r => ((handleKeyDown r key s).2, [])
      | None => (s, [])
      end
  | LayoutNameChange v => (setLayoutName v s, [])
  | SaveClick =>
      if truthy (layoutName s)
      then (s, [mkRequest POST
                  (API_BASE_URL VITE_API_BASE_URL +:+ "/layouts/" +:+ layoutName s)
                  (Some (items s))])
      else (s, [])
  | SaveResponse ok => (s, if ok then [fetchLayouts] else [])
  | LoadSelect name =>
      if bool_decide (name ∈ dom (savedLayouts s))
      then (s, [mkRequest GET
                  (API_BASE_URL VITE_API_BASE_URL +:+ "/layouts/" +:+ name) None])
      else (s, [])
  | LoadResponse name resp =>
      match resp with
      | Some its => (setLayoutName name (setItems its s), [])
      | None => (s, [])
      end
  | DeleteClick confirmed =>
      if delete_button_rendered s && negb (delete_button_disabled s) && confirmed
      then (s, [mkRequest DELETE
                  (API_BASE_URL VITE_API_BASE_URL +:+ "/layouts/" +:+ layoutName s)
                  None])
      else (s, [])
  | DeleteResponse ok =>
      if ok then (setItems [] (setLayoutName "" s), [fetchLayouts]) else (s, [])
  | LayoutsResponse data =>
      match data with
      | Some d => (setSavedLayouts d s, [])
      | None => (s, [])
      end
  end.

(** The commit that follows.  The effect
    [useEffect(() => {...}, [isBindingKey, isSettingLabel, selectedItem])]
    runs again only when one of the three dependencies changed: its cleanup
    removes the old listener, and the [handleKeyDown] of the new render is
    added when a flag is set.  Otherwise the listener of the earlier render
    stays registered. *)
Definition commit (s' : State) (reqs : list request) (e : Editor) : Editor :=
  if decide (deps s' = effect_deps e) then
    mkEditor s' (listener e) (effect_deps e) (requests e ++ reqs)
  else
    mkEditor s'
             (if isBindingKey s' || isSettingLabel s' then Some s' else None)
             (deps s') (requests e ++ reqs).

Definition step (ev : event) (e : Editor) : Editor :=
  let '(s', reqs) := handle ev e in commit s' reqs e.

Definition run (evs : list event) (e : Editor) : Editor :=
  foldl (fun acc ev => step ev acc) e evs.

(** After mounting: no listener (both flags are false), and the effect that
    fetches the saved layouts has run. *)
Definition init : Editor :=
  mkEditor initial None (deps initial) [fetchLayouts].

End WithEnv.

(** What a key press does in the component [e]. *)
Definition dispatchKeyDown (e : Editor) (key : string) : outcome :=
  match listener e with
  | Some r => (handleKeyDown r key (st e)).1
  | None => Delivered
  end.

(** The capture machine of section 4.4, read off the flags the way
    [handleKeyDown] reads them: [isBindingKey] first. *)
Inductive capture : Type :=
| Idle
| AwaitingKeybind (player : string)
| AwaitingLabel.

Definition capture_of (s : State) : capture :=
  if isBindingKey s then AwaitingKeybind (bindingPlayer s)
  else if isSettingLabel s then AwaitingLabel
  else Idle.

(** Both flags set at once. *)
Definition both_flags (s : State) : bool := isBindingKey s && isSettingLabel s.

(** A click on one capture button while the other capture is pending. *)
Definition overlapping_click (ev : event) (e : Editor) : bool :=
  match ev with
  | SetLabelClick => isBindingKey (st e)
  | SetKeybindClick _ => isSettingLabel (st e)
  | _ => false
  end.

(** The listener on [window] fits the committed state: the effect last ran
    with the current dependencies; a registered [handleKeyDown] closes over
    a render with the same flags and selection as the current state (its
    [items] and [bindingPlayer] may be older), and in that render the
    selected item exists whenever its keybinds are going to be read; without
    a listener both flags are off. *)
Definition listener_ok (e : Editor) : Prop :=
  effect_deps e = deps (st e)
  ∧ match listener e with
    | Some r =>
        deps r = deps (st e)
        ∧ isBindingKey r || isSettingLabel r = true
        ∧ (isBindingKey r = true → truthy_opt (selectedItem r) = true →
           is_Some (selectedItemData r))
    | None => isBindingKey (st e) = false ∧ isSettingLabel (st e) = false
    end.

(** No event of the trace is a click on one capture button while the other
    capture is pending. *)
Fixpoint no_overlapping_clicks (env : option string) (evs : list event)
    (e : Editor) : bool :=
  match evs with
  | [] => true
  | ev :: rest =>
      negb (overlapping_click ev e) && no_overlapping_clicks env rest (step env ev e)
  end.

(** The text of a button on the canvas:
    [item.icon ? item.icon : (item.keybinds?.default || 'N/A')]. *)
Definition button_content (it : Item) : string :=
  if truthy_opt (icon it) then default "" (icon it)
  else or_else (keybind_of it "default") "N/A".

(** The selection names an item of the list, or nothing is selected. *)
Definition selection_valid (s : State) : Prop :=
  ∀ id, selectedItem s = Some id → id ∈ (i <$> items s).

(** An event that replaces the item list by what the server answered: a
    loaded layout, or nothing after a deletion. *)
Definition replaces_layout (ev : event) : bool :=
  match ev with
  | LoadResponse _ (Some _) => true
  | DeleteResponse true => true
  | _ => false
  end.

(** [Math.max(0, Math.min(v, size - 80))], the clamp of [handleDrag]. *)
Definition clamp (size v : Z) : Z := Z.max 0 (Z.min v (size - 80)).

(** The events whose handler calls [fetch]: 'Save Layout', a choice in the
    load select, a confirmed 'Delete Current Layout', and the successful
    answers to a save and to a deletion, after which the list of layouts is
    fetched again. *)
Definition calls_fetch (ev : event) : bool :=
  match ev with
  | SaveClick | LoadSelect _ | DeleteClick true
  | SaveResponse true | DeleteResponse true => true
  | _ => false
  end.

End Editor.

(** ** URLs: the browser functions the clients call *)

Module Url.

Definition in_range (lo hi : N) (c : ascii) : bool :=
  (lo <=? N_of_ascii c)%N && (N_of_ascii c <=? hi)%N.

Definition is_digit (c : ascii) : bool := in_range 48 57 c.

Definition is_alpha (c : ascii) : bool := in_range 65 90 c || in_range 97 122 c.

(** The characters [encodeURIComponent] leaves alone:
    [A-Z a-z 0-9 - _ . ! ~ * ' ( )]. *)
Definition is_unreserved (c : ascii) : bool :=
  is_alpha c || is_digit c
  || bool_decide (c ∈ ["-"; "_"; "."; "!"; "~"; "*"; "'"; "("; ")"]%char).

Definition hex_upper (n : N) : ascii :=
  if (n <? 10)%N then ascii_of_N (48 + n) else ascii_of_N (55 + n).

Definition hex_val (c : ascii) : option N :=
  if is_digit c then Some (N_of_ascii c - 48)%N
  else if in_range 65 70 c then Some (N_of_ascii c - 55)%N
  else if in_range 97 102 c then Some (N_of_ascii c - 87)%N
  else None.

(** [encodeURIComponent(s)]: every byte of the UTF-8 encoding that is not
    unreserved becomes [%XX]. *)
Fixpoint encodeURIComponent (s : string) : string :=
  match s with
  | EmptyString => EmptyString
  | String c rest =>
      if is_unreserved c then String c (encodeURIComponent rest)
      else
        String "%" (String (hex_upper (N_of_ascii c / 16))
                      (String (hex_upper (N_of_ascii c mod 16))
                         (encodeURIComponent rest)))
  end.

(** Decoding of one name or value of an [application/x-www-form-urlencoded]
    string: [+] is a space, [%XX] is a byte, a stray [%] stays. *)
Fixpoint percent_decode (s : string) : string :=
  match s with
  | EmptyString => EmptyString
  | String c tl =>
      match tl with
      | String a (String b rest) =>
          match bool_decide (c = "%"%char), hex_val a, hex_val b with
          | true, Some h, Some l =>
              String (ascii_of_N (16 * h + l)) (percent_decode rest)
          | _, _, _ =>
              String (if bool_decide (c = "+"%char) then " "%char else c)
                     (percent_decode tl)
          end
      | _ =>
          String (if bool_decide (c = "+"%char) then " "%char else c)
                 (percent_decode tl)
      end
  end.

(** [s.split(sep)] for a one-character separator. *)
Fixpoint split_on (sep : ascii) (s : string) : list string :=
  match s with
  | EmptyString => [EmptyString]
  | String c rest =>
      if bool_decide (c = sep) then EmptyString :: split_on sep rest
      else
        match split_on sep rest with
        | h :: t => String c h :: t
        | [] => [String c EmptyString]
        end
  end.

(** The text before the first [sep]. *)
Fixpoint take_until (sep : ascii) (s : string) : string :=
  match s with
  | EmptyString => EmptyString
  | String c rest =>
      if bool_decide (c = sep) then EmptyString else String c (take_until sep rest)
  end.

(** The text from the first [sep] on, [sep] included; empty without one. *)
Fixpoint drop_until (sep : ascii) (s : string) : string :=
  match s with
  | EmptyString => EmptyString
  | String c rest => if bool_decide (c = sep) then s else drop_until sep rest
  end.

Fixpoint strip_prefix (p s : string) : option string :=
  match p, s with
  | EmptyString, _ => Some s
  | String a p', String b s' =>
      if bool_decide (a = b) then strip_prefix p' s' else None
  | _, _ => None
  end.

Definition tail (s : string) : string :=
  match s with
  | EmptyString => EmptyString
  | String _ rest => rest
  end.

(** The name-value pairs of a query string (without its [?]): split on [&],
    skip empty pieces, split each piece at its first [=], decode both
    sides. *)
Definition parse_query (q : string) : list (string * string) :=
  omap (fun piece =>
          if bool_decide (piece = "") then None
          else Some (percent_decode (take_until "=" piece),
                     percent_decode (tail (drop_until "=" piece))))
       (split_on "&" q).

(** [new URLSearchParams(search).get(name)]: the first value of [name], or
    [null]. *)
Definition searchParams_get (name : string) (search : string) : option string :=
  let q := default search (strip_prefix "?" search) in
  snd <$> find (fun p => bool_decide (fst p = name)) (parse_query q).

(** [location.search] of a page address: what precedes the fragment, from
    its first [?] on. *)
Definition search (url : string) : string :=
  drop_until "?" (take_until "#" url).

(** Whether an address has a fragment; [new WebSocket(url)] throws a
    SyntaxError on such an address. *)
Definition has_fragment (url : string) : bool :=
  negb (bool_decide (drop_until "#" url = "")).

(** The path of an address [scheme://authority/path?query#fragment]. *)
Definition pathname (url : string) : string :=
  let after_scheme := tail (tail (tail (drop_until ":" url))) in
  take_until "#" (take_until "?" (drop_until "/" after_scheme)).


(** A JS number that came out of [parseInt]: NaN, or the double nearest to
    an integer.  [Int z] stands for the integer [z] itself; it is the
    number JS has when [z] is an integer a double holds exactly and JS
    writes in plain digits, which is so up to 2^53 in magnitude ([exact]).
    Beyond, [parseInt] rounds and a template literal switches to the
    exponent notation from 10^21 on: such numbers are outside the model. *)
Inductive number : Type :=
| NaN
| Int (z : Z).

Definition exact (n : number) : bool :=
  match n with
  | NaN => true
  | Int z => (Z.abs z <=? 2 ^ 53)%Z
  end.

(** White space of one byte: tab, line feed, vertical tab, form feed,
    carriage return, space. *)
Definition is_space (c : ascii) : bool :=
  bool_decide (N_of_ascii c ∈ [9; 10; 11; 12; 13; 32]%N).

(** White space of two bytes: U+00A0. *)
Definition is_space2 (a b : ascii) : bool :=
  (N_of_ascii a =? 194)%N && (N_of_ascii b =? 160)%N.

(** White space of three bytes: U+1680, U+2000 to U+200A, U+2028, U+2029,
    U+202F, U+205F, U+3000 and U+FEFF. *)
Definition is_space3 (a b c : ascii) : bool :=
  let x := N_of_ascii a in
  let y := N_of_ascii b in
  let z := N_of_ascii c in
  ((x =? 225) && (y =? 154) && (z =? 128)
   || (x =? 226) && (y =? 128)
      && ((128 <=? z) && (z <=? 138) || (z =? 168) || (z =? 169) || (z =? 175))
   || (x =? 226) && (y =? 129) && (z =? 159)
   || (x =? 227) && (y =? 128) && (z =? 128)
   || (x =? 239) && (y =? 187) && (z =? 191))%N.

(** The text after the leading white space and line terminators, the
    characters [parseInt] skips. *)
Fixpoint skip_spaces (s : string) : string :=
  match s with
  | EmptyString => EmptyString
  | String a r1 =>
      if is_space a then skip_spaces r1
      else
        match r1 with
        | String b r2 =>
            if is_space2 a b then skip_spaces r2
            else
              match r2 with
              | String c r3 => if is_space3 a b c then skip_spaces r3 else s
              | EmptyString => s
              end
        | EmptyString => s
        end
  end.

(** The value of the leading decimal digits of [s], after those in [acc];
    [None] when [s] does not start with a digit and [acc] is [None]. *)
Fixpoint digits (acc : option Z) (s : string) : option Z :=
  match s with
  | EmptyString => acc
  | String c rest =>
      if is_digit c
      then digits (Some (10 * default 0 acc + Z.of_N (N_of_ascii c - 48))%Z) rest
      else acc
  end.

(** [parseInt(s, 10)]: leading white space is skipped, a sign is read, then
    the longest run of decimal digits; NaN without a digit.  The result is
    the integer the digits denote, which is the number JS returns when it
    is [exact]. *)
Definition parseInt (s : string) : number :=
  let s1 := skip_spaces s in
  let '(neg, s2) :=
    match s1 with
    | String "-" rest => (true, rest)
    | String "+" rest => (false, rest)
    | _ => (false, s1)
    end in
  match digits None s2 with
  | Some n => Int (if neg then - n else n)%Z
  | None => NaN
  end.

(** An [exact] number inside a template literal. *)
Definition number_to_string (n : number) : string :=
  match n with
  | NaN => "NaN"
  | Int z => NilZero.string_of_int (Z.to_int z)
  end.



End Url.

(** ** JSON text *)

Module Json.

Definition quote_char : ascii := ascii_of_nat 34.

Definition backslash : ascii := ascii_of_nat 92.

Definition hex_lower (n : N) : ascii :=
  if (n <? 10)%N then ascii_of_N (48 + n) else ascii_of_N (87 + n).

(** The escape of one character inside a JSON string, as [JSON.stringify]
    writes it. *)
Definition escape (c : ascii) : string :=
  let n := N_of_ascii c in
  if bool_decide (n = 8%N) then String backslash "b"
  else if bool_decide (n = 9%N) then String backslash "t"
  else if bool_decide (n = 10%N) then String backslash "n"
  else if bool_decide (n = 12%N) then String backslash "f"
  else if bool_decide (n = 13%N) then String backslash "r"
  else if bool_decide (n = 34%N) then String backslash (String quote_char "")
  else if bool_decide (n = 92%N) then String backslash (String backslash "")
  else if (n <? 32)%N then
    String backslash
      ("u00" +:+ String (hex_lower (n / 16)) (String (hex_lower (n mod 16)) ""))
  else String c "".

Fixpoint escape_all (s : string) : string :=
  match s with
  | EmptyString => EmptyString
  | String c rest => escape c +:+ escape_all rest
  end.

(** [JSON.stringify(s)] for a string [s]. *)
Definition quote (s : string) : string :=
  String quote_char (escape_all s +:+ String quote_char "").

(** [JSON.stringify(o)] for an object [o] whose values are strings, the
    properties in insertion order. *)
Definition stringify_object (fields : list (string * string)) : string :=
  "{" +:+ String.concat ","
            (map (fun f => quote (fst f) +:+ ":" +:+ quote (snd f)) fields)
      +:+ "}".

(** The value of a hexadecimal digit. *)
Definition hex_val (c : ascii) : option N :=
  let n := N_of_ascii c in
  if (48 <=? n)%N && (n <=? 57)%N then Some (n - 48)%N
  else if (97 <=? n)%N && (n <=? 102)%N then Some (n - 87)%N
  else if (65 <=? n)%N && (n <=? 70)%N then Some (n - 55)%N
  else None.

(** Reads the characters of a JSON string literal after its opening quote:
    the text up to the closing quote with the escapes undone, and what
    follows the closing quote.  (The escapes [\u00XX] are read for the
    two-digit range [JSON.stringify] writes here.) *)
Fixpoint read_chars (s : string) : option (string * string) :=
  match s with
  | EmptyString => None
  | String c rest =>
      if bool_decide (c = quote_char) then Some (EmptyString, rest)
      else if bool_decide (c = backslash) then
        match rest with
        | String e rest' =>
            let plain (d : ascii) :=
              match read_chars rest' with
              | Some (t, r) => Some (String d t, r)
              | None => None
              end in
            if bool_decide (e = "b"%char) then plain (ascii_of_nat 8)
            else if bool_decide (e = "t"%char) then plain (ascii_of_nat 9)
            else if bool_decide (e = "n"%char) then plain (ascii_of_nat 10)
            else if bool_decide (e = "f"%char) then plain (ascii_of_nat 12)
            else if bool_decide (e = "r"%char) then plain (ascii_of_nat 13)
            else if bool_decide (e = quote_char) then plain quote_char
            else if bool_decide (e = backslash) then plain backslash
            else if bool_decide (e = "u"%char) then
              match rest' with
              | String "0" (String "0" (String h (String l rest''))) =>
                  match hex_val h, hex_val l, read_chars rest'' with
                  | Some a, Some b, Some (t, r) =>
                      Some (String (ascii_of_N (16 * a + b)) t, r)
                  | _, _, _ => None
                  end
              | _ => None
              end
            else None
        | EmptyString => None
        end
      else
        match read_chars rest with
        | Some (t, r) => Some (String c t, r)
        | None => None
        end
  end.

(** Reads a JSON string literal at the front of [s]. *)
Definition read_string (s : string) : option (string * string) :=
  match s with
  | String c rest => if bool_decide (c = quote_char) then read_chars rest else None
  | EmptyString => None
  end.

End Json.

(** ** The join screen (JoinScreen.jsx) *)

Module JoinScreen.

(** [getBaseUrl()] on [window.location.origin]. *)
Definition getBaseUrl (origin : string) : string :=
  match String.rev origin with
  | String "/" r => String.rev r
  | _ => origin
  end.

(** The address built for player [n]:
    [`${getBaseUrl()}/remote/${i}?layout=${encodeURIComponent(selectedLayout)}`]. *)
Definition remoteUrl (origin : string) (n : Z) (selectedLayout : string) : string :=
  getBaseUrl origin +:+ "/remote/" +:+ Url.number_to_string (Url.Int n)
    +:+ "?layout=" +:+ Url.encodeURIComponent selectedLayout.

(** The loop [for (let i = 1; i <= numPlayers; i++)]: one link per player;
    none when [numPlayers] is NaN. *)
Definition links (origin : string) (numPlayers : Url.number)
    (selectedLayout : string) : list (Z * string) :=
  match numPlayers with
  | Url.NaN => []
  | Url.Int n =>
      map (fun k => (Z.of_nat k, remoteUrl origin (Z.of_nat k) selectedLayout))
          (seq 1 (Z.to_nat n))
  end.

(** The React state of the component.  Of [savedLayouts] only
    [Object.keys(savedLayouts)] is read; it is kept as that list of names. *)
Record State : Type := mkState {
  numPlayers : Url.number;
  selectedLayout : string;
  savedLayouts : list string;
  showQRCodes : bool
}.

Definition initial : State := mkState (Url.Int 1) "" [] false.

(** What the user and the network can do: the answer to [GET /layouts]
    (its key names, or a failure), a change of the number input (the value
    [parseInt] made of it), a choice in the layout select, a click on
    'Generate Join Links', a click on 'Back'. *)
Inductive event : Type :=
| LayoutsResponse (keys : option (list string))
| NumPlayersChange (value : Url.number)
| SelectLayout (name : string)
| GenerateClick
| BackClick.

(** The handlers.  While the QR codes are shown only 'Back' is rendered;
    the select offers the saved names and is disabled without any; the
    'Generate Join Links' button is [disabled={!selectedLayout}]. *)
Definition step (ev : event) (s : State) : State :=
  match ev with
  | LayoutsResponse (Some keys) =>
      mkState (numPlayers s)
              (match keys with
               | first :: _ => if truthy first then first else selectedLayout s
               | [] => selectedLayout s
               end)
              keys (showQRCodes s)
  | LayoutsResponse None => s
  | NumPlayersChange v =>
      if showQRCodes s then s
      else mkState v (selectedLayout s) (savedLayouts s) false
  | SelectLayout name =>
      if negb (showQRCodes s) && bool_decide (name ∈ savedLayouts s)
      then mkState (numPlayers s) name (savedLayouts s) false
      else s
  | GenerateClick =>
      if negb (showQRCodes s) && truthy (selectedLayout s)
      then mkState (numPlayers s) (selectedLayout s) (savedLayouts s) true
      else s
  | BackClick =>
      if showQRCodes s
      then mkState (numPlayers s) (selectedLayout s) (savedLayouts s) false
      else s
  end.

Definition run (evs : list event) (s : State) : State :=
  foldl (fun acc ev => step ev acc) s evs.


End JoinScreen.

(** ** The remote client (RemoteControl.jsx) *)

Module RemoteControl.

Inductive readyState : Type :=
| CONNECTING
| OPEN
| CLOSING
| CLOSED.

#[global] Instance readyState_eq_dec : EqDecision readyState.
Proof. solve_decision. Defined.

(** The socket in [ws.current]: its address, its state, and the frames
    handed to [send], oldest first. *)
Record WebSocket : Type := mkWebSocket {
  url : string;
  state : readyState;
  sent : list string
}.

Record State : Type := mkState {
  layout : option (list Item);
  ws : option WebSocket;
  fetched : list string
}.

Inductive action : Type :=
| down
| up.

Definition action_name (a : action) : string :=
  match a with
  | down => "down"
  | up => "up"
  end.

(** [JSON.stringify({ itemId: itemId, action: ... })]. *)
Definition message (itemId : string) (a : action) : string :=
  Json.stringify_object [("itemId", itemId); ("action", action_name a)].

(** [`ws://${window.location.hostname}:8000/ws/${playerId}?layout=${layoutName}`]. *)
Definition wsUrl (hostname : string) (playerId : Url.number) (layoutName : string)
    : string :=
  "ws://" +:+ hostname +:+ ":8000/ws/" +:+ Url.number_to_string playerId
    +:+ "?layout=" +:+ layoutName.

(** The effect that runs when the component mounts on the page
    [/remote/:playerId] with query [search]: without a layout name nothing
    is opened; otherwise the layout is fetched and the socket is created
    (the constructor throws on an address with a fragment, leaving
    [ws.current] null). *)
Definition mount (API_BASE_URL hostname urlPlayerId search : string) : State :=
  let playerId := Url.parseInt urlPlayerId in
  match Url.searchParams_get "layout" search with
  | Some layoutName =>
      if truthy layoutName then
        let u := wsUrl hostname playerId layoutName in
        mkState None
                (if Url.has_fragment u then None
                 else Some (mkWebSocket u CONNECTING []))
                [API_BASE_URL +:+ "/layouts/" +:+ layoutName]
      else mkState None None []
  | None => mkState None None []
  end.

(** [ws.current.send(data)] guarded by
    [ws.current && ws.current.readyState === WebSocket.OPEN]. *)
Definition send_if_open (data : string) (s : State) : State :=
  match ws s with
  | Some w =>
      if decide (state w = OPEN)
      then mkState (layout s) (Some (mkWebSocket (url w) OPEN (sent w ++ [data])))
                   (fetched s)
      else s
  | None => s
  end.

Definition handleButtonPress (itemId : string) (s : State) : State :=
  send_if_open (message itemId down) s.

Definition handleButtonRelease (itemId : string) (s : State) : State :=
  send_if_open (message itemId up) s.

(** What can happen to the mounted component: the layout arrives, the
    socket changes state, a rendered button (by position) is touched or
    clicked, the component unmounts. *)
Inductive event : Type :=
| LayoutResponse (resp : option (list Item))
| SocketState (st : readyState)
| TouchStart (idx : nat)
| TouchEnd (idx : nat)
| MouseDown (idx : nat)
| MouseUp (idx : nat)
| Unmount.

Definition set_socket_state (st : readyState) (s : State) : State :=
  match ws s with
  | Some w => mkState (layout s) (Some (mkWebSocket (url w) st (sent w))) (fetched s)
  | None => s
  end.

(** The button at position [idx], when the layout is rendered. *)
Definition button (s : State) (idx : nat) : option Item :=
  match layout s with
  | Some its => its !! idx
  | None => None
  end.

Definition step (ev : event) (s : State) : State :=
  match ev with
  | LayoutResponse resp =>
      match resp with
      | Some its => mkState (Some its) (ws s) (fetched s)
      | None => s
      end
  | SocketState st => set_socket_state st s
  | TouchStart idx | MouseDown idx =>
      match button s idx with
      | Some it => handleButtonPress (i it) s
      | None => s
      end
  | TouchEnd idx | MouseUp idx =>
      match button s idx with
      | Some it => handleButtonRelease (i it) s
      | None => s
      end
  | Unmount => set_socket_state CLOSING s
  end.

Definition run (evs : list event) (s : State) : State :=
  foldl (fun acc ev => step ev acc) s evs.

(** The frames sent so far. *)
Definition frames (s : State) : list string :=
  match ws s with
  | Some w => sent w
  | None => []
  end.

(** The frame the touched button and the gesture call for. *)
Definition frame_of (ev : event) (s : State) : option string :=
  match ev with
  | TouchStart idx | MouseDown idx =>
      (fun it => message (i it) down) <$> button s idx
  | TouchEnd idx | MouseUp idx =>
      (fun it => message (i it) up) <$> button s idx
  | _ => None
  end.

Definition is_open (s : State) : bool :=
  match ws s with
  | Some w => bool_decide (state w = OPEN)
  | None => false
  end.

(** The text of a button:
    [item.icon ? item.icon : (item.keybinds?.default || 'N/A')]. *)
Definition button_content (it : Item) : string :=
  if truthy_opt (icon it) then default "" (icon it)
  else or_else (keybind_of it "default") "N/A".

(** A press or a release of a button. *)
Definition is_gesture (ev : event) : bool :=
  match ev with
  | TouchStart _ | TouchEnd _ | MouseDown _ | MouseUp _ => true
  | _ => false
  end.

End RemoteControl.

(** ** The receiving end of the socket address *)

Module Server.

(** Modelled from the spec: the backend that accepts the connection is not
    among the sources.  Section 6: the address has the form
    [/ws/{playerId}?layout={layoutName}], with [layoutName] a query
    parameter, URL-decoded. *)
Definition layoutName (wsUrl : string) : option string :=
  Url.searchParams_get "layout" (Url.search wsUrl).

(** Modelled from the spec: [playerId] is a positive integer path segment
    (section 6); a missing or non-numeric one rejects the connection
    (section 4.3). *)
Definition playerId (wsUrl : string) : option Z :=
  match Url.strip_prefix "/ws/" (Url.pathname wsUrl) with
  | Some seg =>
      if forallb Url.is_digit (list_ascii_of_string seg)
      then match Url.digits None seg with
           | Some n => if (0 <? n)%Z then Some n else None
           | None => None
           end
      else None
  | None => None
  end.

End Server.

(** * Part II: theorems *)

(** ** Text *)

Module StringFacts.

Lemma append_cons a s t : String a s +:+ t = String a (s +:+ t).
Proof. reflexivity. Qed.

Lemma append_nil t : "" +:+ t = t.
Proof. reflexivity. Qed.

Lemma append_assoc (a b c : string) : (a +:+ b) +:+ c = a +:+ (b +:+ c).
Proof.
  induction a as [|x a IH]; [done|]. by rewrite !append_cons, IH.
Qed.

End StringFacts.

(** ** The multiplexer *)

Module MultiplexerFacts.
Import Multiplexer.

(** Goals between [bool_decide]s of arithmetic facts. *)
Ltac by_decide :=
  repeat case_bool_decide; first [done | lia | exfalso; lia].

Lemma count_press_eq k m : count (press k m) k = S (count m k).
Proof. unfold press, count; simpl. by rewrite lookup_insert_eq. Qed.

Lemma count_press_ne k k' m : k ≠ k' → count (press k m) k' = count m k'.
Proof. intros. unfold press, count; simpl. by rewrite lookup_insert_ne. Qed.

Lemma count_release_eq k m : count (release k m) k = pred (count m k).
Proof.
  unfold release. destruct (count m k) as [|c] eqn:E; [by rewrite E|].
  unfold count; simpl. by rewrite lookup_insert_eq.
Qed.

Lemma count_release_ne k k' m : k ≠ k' → count (release k m) k' = count m k'.
Proof.
  intros. unfold release. destruct (count m k) as [|c]; [done|].
  unfold count; simpl. by rewrite lookup_insert_ne.
Qed.

Lemma device_press k m :
  device (press k m) = device m ++ expected_calls (Press k) (count m k).
Proof.
  unfold press; simpl. destruct (count m k); simpl; [done|].
  by rewrite app_nil_r.
Qed.

Lemma device_release k m :
  device (release k m) = device m ++ expected_calls (Release k) (count m k).
Proof.
  unfold release. destruct (count m k) as [|[|c]]; simpl;
    by rewrite ?app_nil_r.
Qed.

Lemma release_at_zero k m : count m k = 0 → release k m = m.
Proof. intros E. unfold release. by rewrite E. Qed.

(** C1. At any point of any sequence of [press] and [release] calls (on
    any keys, from any state), an operation on key [k] moves the count of
    [k] up by one ([press]) or down by one floored at 0 ([release]); the
    device trace grows by exactly the call the transition asks for: "down"
    iff the count goes 0 -> 1, "up" iff it goes 1 -> 0, nothing otherwise;
    the counts of the other keys stay; a [release] at count 0 changes
    nothing at all. *)
Theorem press_release_refcount (pre : list op) (o : op) (m : t) :
  let a := run pre m in
  let b := apply o a in
  let k := op_key o in
  count b k = match o with
              | Press _ => S (count a k)
              | Release _ => pred (count a k)
              end
  ∧ device b = device a ++ expected_calls o (count a k)
  ∧ (∀ k', k' ≠ k → count b k' = count a k')
  ∧ (∀ key, o = Release key → count a key = 0 → b = a).
Proof.
  intros a b k. subst b k. generalize a as s. clear. intros s.
  destruct o as [k|k]; simpl.
  - split; [apply count_press_eq|]. split; [apply device_press|].
    split; [|discriminate].
    intros k' Hne. apply count_press_ne; congruence.
  - split; [apply count_release_eq|]. split; [apply device_release|].
    split.
    + intros k' Hne. apply count_release_ne; congruence.
    + intros key [= <-] Hz. by apply release_at_zero.
Qed.

(** The theorem on a trace where two sessions press Enter and both release
    it, followed by a spurious release: nothing changes, and the count of
    another key is not affected either. *)
Lemma press_release_refcount_witness :
  let a := run [Press "Enter"; Press "Enter"; Release "Enter"; Release "Enter"] init in
  count a "Enter" = 0
  ∧ device a = [("Enter", true); ("Enter", false)]
  ∧ apply (Release "Enter") a = a
  ∧ count (apply (Release "Enter") a) "Shift" = count a "Shift".
Proof.
  pose proof (press_release_refcount
                [Press "Enter"; Press "Enter"; Release "Enter"; Release "Enter"]
                (Release "Enter") init) as (_ & _ & Hother & Hzero).
  split; [reflexivity|]. split; [reflexivity|].
  split; [apply (Hzero "Enter"); reflexivity|].
  apply (Hother "Shift"). discriminate.
Defined.

Lemma calls_for_app k l1 l2 :
  calls_for k (l1 ++ l2) = calls_for k l1 ++ calls_for k l2.
Proof. apply filter_app. Qed.

Lemma calls_for_expected_ne o c k :
  op_key o ≠ k → calls_for k (expected_calls o c) = [].
Proof.
  intros Hne. unfold calls_for.
  destruct o as [k0|k0], c as [|[|c]]; simpl in *; try done;
    rewrite filter_cons_False; simpl; done.
Qed.

Lemma calls_for_expected_eq o c :
  calls_for (op_key o) (expected_calls o c) = expected_calls o c.
Proof.
  unfold calls_for.
  destruct o as [k0|k0], c as [|[|c]]; simpl in *; try done;
    rewrite filter_cons_True; simpl; done.
Qed.


Lemma is_down_snoc_ne k c cs : c.1 ≠ k → is_down k (cs ++ [c]) = is_down k cs.
Proof.
  intros Hne. unfold is_down, calls_for.
  rewrite filter_app, filter_cons_False, filter_nil, app_nil_r; done.
Qed.

Lemma is_down_snoc_eq k b cs : is_down k (cs ++ [(k, b)]) = b.
Proof.
  unfold is_down, calls_for.
  rewrite filter_app, filter_cons_True, filter_nil by done.
  by rewrite last_snoc.
Qed.

Lemma consistent_press k m : consistent m → consistent (press k m).
Proof.
  intros Hc k'. destruct (decide (k = k')) as [<-|Hne].
  - rewrite count_press_eq. unfold press; simpl.
    destruct (count m k) eqn:E.
    + rewrite is_down_snoc_eq. by_decide.
    + rewrite Hc, E. by_decide.
  - rewrite count_press_ne by done. rewrite <- Hc. unfold press; simpl.
    destruct (count m k); [|done]. by apply is_down_snoc_ne.
Qed.

Lemma consistent_release k m : consistent m → consistent (release k m).
Proof.
  intros Hc k'. destruct (decide (k = k')) as [<-|Hne].
  - rewrite count_release_eq. unfold release.
    destruct (count m k) as [|[|c]] eqn:E; simpl.
    + rewrite Hc, E. by_decide.
    + rewrite is_down_snoc_eq. by_decide.
    + rewrite Hc, E. by_decide.
  - rewrite count_release_ne by done. rewrite <- Hc. unfold release.
    destruct (count m k) as [|[|c]]; simpl; try done.
    by apply is_down_snoc_ne.
Qed.

Lemma consistent_run ops m : consistent m → consistent (run ops m).
Proof.
  revert m. induction ops as [|o ops IH]; intros m Hc; [done|].
  simpl. apply IH. destruct o; [by apply consistent_press|by apply consistent_release].
Qed.


(** The recorded calls for a key are those of the independent simulation
    of that key, whatever the operations on other keys in between. *)
Lemma run_matches_simulation k ops m :
  count (run ops m) k = (simulate k (count m k) ops).1
  ∧ calls_for k (device (run ops m))
    = calls_for k (device m) ++ (simulate k (count m k) ops).2.
Proof.
  revert m. induction ops as [|o ops IH]; intros m; simpl.
  { by rewrite app_nil_r. }
  destruct (IH (apply o m)) as [IHc IHd]. fold (run ops (apply o m)).
  rewrite IHc, IHd. clear IH IHc IHd.
  assert (Hdev : device (apply o m)
                 = device m ++ expected_calls o (count m (op_key o))).
  { destruct o; [apply device_press|apply device_release]. }
  rewrite Hdev, calls_for_app. case_decide as Hk.
  - subst k. rewrite calls_for_expected_eq. simpl.
    assert (Hc : count (apply o m) (op_key o)
                 = match o with
                   | Press _ => S (count m (op_key o))
                   | Release _ => pred (count m (op_key o))
                   end).
    { destruct o; [apply count_press_eq|apply count_release_eq]. }
    rewrite Hc. by rewrite app_assoc.
  - rewrite calls_for_expected_ne, app_nil_r by done.
    assert (Hc : count (apply o m) k = count m k).
    { destruct o; [by apply count_press_ne|by apply count_release_ne]. }
    by rewrite Hc.
Qed.

(** Shared-key correctness (section 8): two sessions press "Enter"; the
    first release leaves the key down, the second lifts it. *)
Example shared_key :
  device (run [Press "Enter"; Press "Enter"; Release "Enter"] init)
  = [("Enter", true)]
  ∧ device (run [Press "Enter"; Press "Enter"; Release "Enter"; Release "Enter"] init)
    = [("Enter", true); ("Enter", false)].
Proof. split; reflexivity. Qed.



End MultiplexerFacts.

(** ** The session manager *)

Module SessionManagerFacts.
Import SessionManager.
Import MultiplexerFacts.

(** Resolver fallback (section 8). *)
Example resolver_fallback :
  let it := mkItem "btn" 0 0 None (Some {["default" := "w"; "player2" := "i"]}) in
  let unbound := mkItem "btn" 0 0 None (Some {["default" := ""]}) in
  Resolver.resolve [it] "btn" (Resolver.token_of 1) = Resolver.Key "w"
  ∧ Resolver.resolve [it] "btn" (Resolver.token_of 2) = Resolver.Key "i"
  ∧ Resolver.resolve [unbound] "btn" (Resolver.token_of 1) = Resolver.NoKeybind
  ∧ Resolver.resolve [it] "other" (Resolver.token_of 1) = Resolver.NotFound.
Proof. vm_compute. repeat split; reflexivity. Qed.

(** The end-to-end scenario of section 8: down and up on [up-btn], and an
    abrupt disconnect after the down. *)
Example end_to_end :
  let arrows := [mkItem "up-btn" 0 0 None (Some {["default" := "ArrowUp"]})] in
  let store : gmap string (list Item) := {["Arrows" := arrows]} in
  let trace := fun evs => Multiplexer.device (mux (run false store evs init)) in
  trace [Connect 7 (Some 1) "Arrows"; Message 7 "up-btn" (Some Down)]
  = [("ArrowUp", true)]
  ∧ trace [Connect 7 (Some 1) "Arrows"; Message 7 "up-btn" (Some Down);
           Message 7 "up-btn" (Some Up)]
    = [("ArrowUp", true); ("ArrowUp", false)]
  ∧ trace [Connect 7 (Some 1) "Arrows"; Message 7 "up-btn" (Some Down);
           Disconnect 7; Message 7 "up-btn" (Some Down)]
    = [("ArrowUp", true); ("ArrowUp", false)]
  ∧ trace [Connect 7 None "Arrows"; Message 7 "up-btn" (Some Down)] = []
  ∧ trace [Connect 7 (Some 1) "Missing"; Message 7 "up-btn" (Some Down)] = [].
Proof. vm_compute. repeat split; reflexivity. Qed.












(** The other reading of the [down] of section 4.3, for comparison: if
    [press] is called again for a key the session already holds, a session
    that sent [down] for two buttons bound to the same key holds that key
    once in its set but twice in the count; its cleanup releases once, and
    the key stays down with nobody holding it.  That reading contradicts
    the guarantee section 4.3 draws from the cleanup. *)
Lemma repress_leaves_key_down :
  let store : gmap string (list Item) := {["pad" := pad]} in
  let evs := [Connect 1 (Some 1) "pad";
              Message 1 "b1" (Some Down);
              Message 1 "b2" (Some Down)] in
  let m := run true store evs init in
  let m' := step true store (Disconnect 1) m in
  ¬ disconnect_safe true store evs 1
  ∧ held <$> active m 1 = Some {["a"]}
  ∧ Multiplexer.count (mux m') "a" = 1
  ∧ Multiplexer.is_down "a" (Multiplexer.device (mux m')) = true
  ∧ holders "a" (sessions m') = 0
  ∧ active m' 1 = None.
Proof.
  intros store evs m m'. split.
  - intros H. unfold disconnect_safe in H.
    destruct (H (Session Active 1 pad {["a"]}) "a") as [Hcount _].
    + vm_compute. reflexivity.
    + simpl. set_solver.
    + vm_compute in Hcount. discriminate.
  - vm_compute. repeat split; reflexivity.
Qed.



End SessionManagerFacts.

(** ** The layout editor *)

Module EditorFacts.
Import Editor.

Section Env.

Variable env : option string.

Lemma st_commit s' reqs e : st (commit s' reqs e) = s'.
Proof. unfold commit. by case_decide. Qed.

Lemma requests_commit s' reqs e : requests (commit s' reqs e) = requests e ++ reqs.
Proof. unfold commit. by case_decide. Qed.

Lemma st_step ev e : st (step env ev e) = (handle env ev e).1.
Proof. unfold step. destruct (handle env ev e). apply st_commit. Qed.

Lemma requests_step ev e :
  requests (step env ev e) = requests e ++ (handle env ev e).2.
Proof. unfold step. destruct (handle env ev e). apply requests_commit. Qed.

Lemma run_snoc evs ev e : run env (evs ++ [ev]) e = step env ev (run env evs e).
Proof. unfold run. by rewrite foldl_app. Qed.

(** *** The listener and the committed state *)

Lemma listener_ok_commit s' reqs e :
  listener_ok e →
  (deps s' = deps (st e)
   ∨ (isBindingKey s' = true → truthy_opt (selectedItem s') = true →
      is_Some (selectedItemData s'))) →
  listener_ok (commit s' reqs e).
Proof.
  intros [Hd Hl] Hs'. unfold commit. case_decide as Heq; split; simpl.
  - done.
  - rewrite Hd in Heq. destruct (listener e) as [r|].
    + destruct Hl as (Hr & Hf & Hsel). rewrite Heq. auto.
    + unfold deps in Heq. injection Heq as -> -> _. exact Hl.
  - done.
  - destruct Hs' as [Hs'|Hs']; [by rewrite Hd in Heq|].
    destruct (isBindingKey s' || isSettingLabel s') eqn:Hf; [done|].
    by apply orb_false_iff in Hf.
Qed.

Lemma selectedItemData_same_items s s' :
  items s' = items s → selectedItem s' = selectedItem s →
  selectedItemData s' = selectedItemData s.
Proof. unfold selectedItemData. by intros -> ->. Qed.

Lemma listener_ok_step ev e : listener_ok e → listener_ok (step env ev e).
Proof.
  intros Hok. unfold step.
  destruct (handle env ev e) as [s' reqs] eqn:Hh.
  apply listener_ok_commit; [done|].
  destruct ev; simpl in Hh.
  - left. by simplify_eq.
  - destruct (items (st e) !! idx); simplify_eq; [|by left].
    unfold onRemoveItem. case_decide; [right|by left]. done.
  - destruct (items (st e) !! idx); simplify_eq; [|by left].
    right. unfold handleDragStart. by case_decide.
  - left. simplify_eq. unfold handleDrag. by destruct (dragging (st e)).
  - left. by simplify_eq.
  - destruct (selectedItemData (st e)) eqn:Hsel; simplify_eq; [|by left].
    right. intros _ _. by rewrite (selectedItemData_same_items (st e)), Hsel.
  - destruct (selectedItemData (st e)) eqn:Hsel; simplify_eq; [|by left].
    case_bool_decide; simplify_eq; [|by left].
    right. intros _ _. by rewrite (selectedItemData_same_items (st e)), Hsel.
  - destruct Hok as [_ Hl].
    destruct (listener e) as [r|]; simplify_eq; [|by left].
    destruct Hl as (Hr & _ & _). unfold deps in Hr.
    unfold handleKeyDown.
    destruct (isBindingKey r && truthy_opt (selectedItem r)) eqn:Hb.
    { destruct (selectedItemData r); [right|by left]. done. }
    destruct (isSettingLabel r && truthy_opt (selectedItem r)) eqn:Hlab;
      [|by left].
    right. simpl. intros Hbind. exfalso.
    apply andb_true_iff in Hlab as [_ Htr]. rewrite Htr, andb_true_r in Hb.
    simplify_eq. congruence.
  - left. by simplify_eq.
  - left. by destruct (truthy (layoutName (st e))); simplify_eq.
  - left. by simplify_eq.
  - left. by case_bool_decide; simplify_eq.
  - left. by destruct resp; simplify_eq.
  - left. by destruct (_ && _ && _); simplify_eq.
  - left. by destruct ok; simplify_eq.
  - left. by destruct data; simplify_eq.
Qed.

Lemma listener_ok_init : listener_ok (init env).
Proof. repeat split. Qed.

Lemma listener_ok_run evs e : listener_ok e → listener_ok (run env evs e).
Proof.
  revert e. induction evs as [|ev evs IH]; intros e Hok; [done|].
  simpl. apply IH. by apply listener_ok_step.
Qed.

(** Reading [selectedItemData.keybinds] in the listener never throws, in any
    state the editor can reach. *)
Lemma keydown_never_throws evs key :
  dispatchKeyDown (run env evs (init env)) key ≠ Threw.
Proof.
  pose proof (listener_ok_run evs _ listener_ok_init) as [_ Hl].
  unfold dispatchKeyDown.
  destruct (listener _) as [r|]; [|done].
  destruct Hl as (_ & _ & Hsel). unfold handleKeyDown.
  destruct (isBindingKey r && truthy_opt (selectedItem r)) eqn:Hb.
  - apply andb_true_iff in Hb as [Hb Htr].
    destruct (Hsel Hb Htr) as [d ->]. done.
  - by destruct (isSettingLabel r && truthy_opt (selectedItem r)).
Qed.

End Env.

(** *** The two capture flags *)

Lemma both_flags_step env ev e :
  both_flags (st e) = false → overlapping_click ev e = false →
  both_flags (st (step env ev e)) = false.
Proof.
  intros Hb Ho. rewrite st_step. unfold both_flags in *.
  destruct ev; simpl in *; try done.
  - by destruct (items (st e) !! idx); simpl; [unfold onRemoveItem; case_decide|].
  - by destruct (items (st e) !! idx); simpl; [unfold handleDragStart; case_decide|].
  - unfold handleDrag. by destruct (dragging (st e)).
  - destruct (selectedItemData (st e)); simpl; [|done]. by rewrite Ho.
  - destruct (selectedItemData (st e)); simpl; [|done].
    case_bool_decide; simpl; done.
  - destruct (listener e) as [r|]; simpl; [|done]. unfold handleKeyDown.
    destruct (isBindingKey r && truthy_opt (selectedItem r)).
    { by destruct (selectedItemData r). }
    destruct (isSettingLabel r && truthy_opt (selectedItem r)); simpl; [|done].
    apply andb_false_r.
  - by destruct (truthy (layoutName (st e))).
  - by case_bool_decide.
  - by destruct resp.
  - by destruct (_ && _ && _).
  - by destruct ok.
  - by destruct data.
Qed.

(** C4 as stated fails: with an item selected, 'Set Label' followed by
    'Set default Keybind' leaves both flags set. *)
Lemma both_flags_counterexample :
  let click := mkMouse 0 10 10 (mkRect 0 0 800 600) in
  both_flags
    (st (run None
           [AddItemClick "x"; ItemMouseDown 0 click; MouseUp;
            SetLabelClick; SetKeybindClick "default"]
           (init None)))
  = true.
Proof. vm_compute. reflexivity. Qed.

(** C4, amended.  In every sequence of editor interactions in which
    'Set Label' is not clicked while a keybind capture is pending and
    'Set <player> Keybind' is not clicked while a label capture is pending,
    the two flags are never both set.  Such a click on the panel of a
    selected item does set both.  In a state the editor has reached with
    both flags set and an item selected, a listener is registered and its
    [handleKeyDown], which tests [isBindingKey] first, takes the next key
    press as a keybind: the press is intercepted, the key is stored in the
    keybind table of the selected item under the binding player of the
    render the listener closes over, and the state that follows has only
    the label flag set. *)
Theorem flags_exclusive_without_overlap (env : option string) :
  (∀ evs, no_overlapping_clicks env evs (init env) = true →
          both_flags (st (run env evs (init env))) = false)
  ∧ (∀ e, is_Some (selectedItemData (st e)) → isBindingKey (st e) = true →
          both_flags (st (step env SetLabelClick e)) = true)
  ∧ (∀ e p, is_Some (selectedItemData (st e)) → p ∈ players →
            isSettingLabel (st e) = true →
            both_flags (st (step env (SetKeybindClick p) e)) = true)
  ∧ (∀ evs key,
       let e := run env evs (init env) in
       let e' := step env (KeyDown key) e in
       both_flags (st e) = true → truthy_opt (selectedItem (st e)) = true →
       ∃ r d,
         listener e = Some r
         ∧ selectedItemData r = Some d
         ∧ handleKeyDown r key (st e) = (Intercepted, st e')
         ∧ dispatchKeyDown e key = Intercepted
         ∧ items (st e')
           = newItems (items r) (selectedItem r)
               (SetKeybinds (<[bindingPlayer r := key]> (default ∅ (keybinds d))))
         ∧ isBindingKey (st e') = false
         ∧ isSettingLabel (st e') = true
         ∧ capture_of (st e') = AwaitingLabel).
Proof.
  split; [|split; [|split]].
  - intros evs. generalize (eq_refl : both_flags (st (init env)) = false).
    generalize (init env) as e. induction evs as [|ev evs IH]; intros e Hb Hno.
    + done.
    + simpl in *. apply andb_true_iff in Hno as [Hev Hrest].
      apply negb_true_iff in Hev. apply IH; [|done].
      by apply both_flags_step.
  - intros e [d Hd] Hb. rewrite st_step. simpl. rewrite Hd. simpl.
    unfold both_flags. simpl. by rewrite Hb.
  - intros e p [d Hd] Hp Hl. rewrite st_step. simpl. rewrite Hd.
    rewrite bool_decide_eq_true_2 by done. unfold both_flags. simpl. done.
  - intros evs key e e' Hboth Htr.
    apply andb_true_iff in Hboth as [Hb Hl].
    pose proof (listener_ok_run env evs _ (listener_ok_init env)) as [_ Hok].
    fold e in Hok. subst e'. rewrite st_step. unfold dispatchKeyDown. simpl.
    destruct (listener e) as [r|]; [|destruct Hok; congruence].
    destruct Hok as (Hdeps & _ & Hsel).
    injection Hdeps as Hrb Hrl Hrs.
    rewrite <- Hrb in Hb. rewrite <- Hrs in Htr.
    destruct (Hsel Hb Htr) as [d Hd].
    exists r, d. unfold handleKeyDown. rewrite Hb, Htr, Hd. simpl.
    repeat split; reflexivity.
Qed.

(** The theorem on the flow the editor intends (select a button, bind a
    key for player 1, then the label is awaited), on the two clicks that
    overlap the captures, and on the key press that follows the second. *)
Lemma flags_exclusive_without_overlap_witness :
  let click := mkMouse 0 10 10 (mkRect 0 0 800 600) in
  let select := [AddItemClick "x"; ItemMouseDown 0 click; MouseUp] in
  let binding := run None (select ++ [SetKeybindClick "player1"]) (init None) in
  let labelling := run None (select ++ [SetLabelClick]) (init None) in
  let overlap := select ++ [SetLabelClick; SetKeybindClick "player2"] in
  both_flags (st (run None (select ++ [SetKeybindClick "player1"; KeyDown "k"])
                      (init None))) = false
  ∧ both_flags (st (step None SetLabelClick binding)) = true
  ∧ both_flags (st (step None (SetKeybindClick "player2") labelling)) = true
  ∧ dispatchKeyDown (run None overlap (init None)) "k" = Intercepted
  ∧ capture_of (st (step None (KeyDown "k") (run None overlap (init None))))
    = AwaitingLabel.
Proof.
  intros click select binding labelling overlap.
  destruct (flags_exclusive_without_overlap None) as (Hex & Hlab & Hbind & Hkey).
  split; [apply Hex; vm_compute; reflexivity|].
  split; [apply Hlab; [vm_compute; eauto|vm_compute; reflexivity]|].
  split.
  { apply Hbind; [vm_compute; eauto| |vm_compute; reflexivity].
    unfold players. rewrite !elem_of_cons. auto. }
  assert (Hboth : both_flags (st (run None overlap (init None))) = true).
  { vm_compute. reflexivity. }
  assert (Htr : truthy_opt (selectedItem (st (run None overlap (init None))))
                = true).
  { vm_compute. reflexivity. }
  destruct (Hkey overlap "k" Hboth Htr)
    as (r & d & _ & _ & _ & Hout & _ & _ & _ & Hcap).
  split; [exact Hout|exact Hcap].
Defined.

(** *** Key presses during a capture *)

Lemma lookup_map {A B} (f : A → B) (l : list A) (idx : nat) :
  map f l !! idx = f <$> (l !! idx).
Proof.
  revert idx. induction l as [|a l IH]; intros [|idx]; simpl; auto.
Qed.

Lemma elem_of_newItems its sel a it' :
  it' ∈ newItems its sel a →
  ∃ it, it ∈ its ∧ it' = if is_item sel it then assign a it else it.
Proof.
  unfold newItems. rewrite list_elem_of_In, in_map_iff.
  intros (it & <- & Hin). exists it. by rewrite list_elem_of_In.
Qed.

(** When the registered listener is the one of the current render, a key
    press during a capture does what section 4.4 says: it is intercepted;
    while a keybind is awaited the key becomes the selected item's keybind
    for the binding player and the machine awaits a label; while a label is
    awaited the (icon-mapped) key becomes the item's icon and the machine
    is idle. *)
Lemma keydown_fresh_listener env e id key :
  listener e = Some (st e) →
  selectedItem (st e) = Some id → id ≠ "" →
  is_Some (selectedItemData (st e)) →
  let e' := step env (KeyDown key) e in
  (isBindingKey (st e) = true →
     dispatchKeyDown e key = Intercepted
     ∧ capture_of (st e') = AwaitingLabel
     ∧ (∀ it, it ∈ items (st e') → i it = id →
              keybind_of it (bindingPlayer (st e)) = Some key))
  ∧ (isBindingKey (st e) = false → isSettingLabel (st e) = true →
     inherited key = false →
     dispatchKeyDown e key = Intercepted
     ∧ capture_of (st e') = Idle
     ∧ (∀ it, it ∈ items (st e') → i it = id →
              icon it = Some (or_else (keyToIconMap !! key) key))).
Proof.
  intros Hl Hsel Hid [d Hd] e'.
  assert (Htr : truthy_opt (selectedItem (st e)) = true).
  { rewrite Hsel. simpl. unfold truthy. by rewrite bool_decide_eq_false_2. }
  subst e'. rewrite st_step. unfold dispatchKeyDown. simpl. rewrite Hl.
  unfold handleKeyDown. rewrite Htr, !andb_true_r, Hd.
  split.
  - intros Hb. rewrite Hb. simpl. split; [done|]. split; [done|].
    intros it (it0 & Hin & ->)%elem_of_newItems Hi.
    unfold is_item in *. case_bool_decide as Hit.
    + unfold keybind_of. simpl. apply lookup_insert_eq.
    + destruct Hit. rewrite Hsel. by f_equal.
  - intros Hb Hlab _. rewrite Hb, Hlab. simpl. split; [done|].
    split; [unfold capture_of; simpl; by rewrite Hb|].
    intros it (it0 & Hin & ->)%elem_of_newItems Hi.
    unfold is_item in *. case_bool_decide as Hit.
    + done.
    + destruct Hit. rewrite Hsel. by f_equal.
Qed.

(** A capture begun from [Idle] registers the listener of the render it
    produces, so the key press that follows at once is handled as section
    4.4 says. *)
Lemma capture_begins_fresh env e ev :
  listener_ok e → capture_of (st e) = Idle →
  is_Some (selectedItemData (st e)) →
  ev = SetLabelClick ∨ (∃ p, ev = SetKeybindClick p ∧ p ∈ players) →
  listener (step env ev e) = Some (st (step env ev e)).
Proof.
  intros [Hd _] Hidle [d Hsel] Hev.
  assert (Hflags : isBindingKey (st e) = false ∧ isSettingLabel (st e) = false).
  { unfold capture_of in Hidle.
    by destruct (isBindingKey (st e)), (isSettingLabel (st e)). }
  destruct Hflags as [Hb Hl].
  unfold step.
  destruct Hev as [->|(p & -> & Hp)]; simpl; rewrite Hsel;
    rewrite ?bool_decide_eq_true_2 by done;
    unfold commit; rewrite Hd; unfold deps; simpl; rewrite ?Hb, ?Hl;
    (case_decide as Heq; [discriminate Heq|]); simpl;
    rewrite ?orb_true_r; reflexivity.
Qed.

(** C3 on the failing input: 'Set player1 Keybind' then 'Set player2
    Keybind' then the key "k".  The machine is awaiting a keybind for
    player2, the event is intercepted and the machine moves on to the
    label, but the key is stored for player1: the listener is the closure
    of the render in which [isBindingKey] became true, because the effect's
    dependencies leave out [bindingPlayer]. *)
Theorem keydown_stale_bindingPlayer :
  let click := mkMouse 0 10 10 (mkRect 0 0 800 600) in
  let e := run None
             [AddItemClick "x"; ItemMouseDown 0 click; MouseUp;
              SetKeybindClick "player1"; SetKeybindClick "player2"]
             (init None) in
  let e' := step None (KeyDown "k") e in
  capture_of (st e) = AwaitingKeybind "player2"
  ∧ selectedItem (st e) = Some "x"
  ∧ dispatchKeyDown e "k" = Intercepted
  ∧ capture_of (st e') = AwaitingLabel
  ∧ ((fun it => (i it, keybind_of it "player2")) <$> items (st e')) = [("x", None)]
  ∧ ((fun it => (i it, keybind_of it "player1")) <$> items (st e')) = [("x", Some "k")].
Proof. vm_compute. repeat split; reflexivity. Qed.

(** *** The selected item and the item list *)

(** C8 on the failing input: a layout is loaded while a label capture is
    pending.  The flag is still set and the selection still names the old
    button, which is no longer in the list.  The listener does not throw
    (it still reads the list of the render in which the capture began), and
    the next key press puts that old list back in place of the loaded
    layout. *)
Theorem selected_item_missing_after_load :
  let click := mkMouse 0 10 10 (mkRect 0 0 800 600) in
  let arrows := [mkItem "up-btn" 0 0 None (Some {["default" := "ArrowUp"]})] in
  let e := run None
             [AddItemClick "x"; ItemMouseDown 0 click; MouseUp; SetLabelClick;
              LayoutsResponse (Some {["Arrows" := arrows]});
              LoadSelect "Arrows"; LoadResponse "Arrows" (Some arrows)]
             (init None) in
  let e' := step None (KeyDown "a") e in
  capture_of (st e) = AwaitingLabel
  ∧ selectedItem (st e) = Some "x"
  ∧ i <$> items (st e) = ["up-btn"]
  ∧ selectedItemData (st e) = None
  ∧ dispatchKeyDown e "a" = Intercepted
  ∧ layoutName (st e') = "Arrows"
  ∧ ((fun it => (i it, icon it)) <$> items (st e')) = [("x", Some "a")].
Proof. vm_compute. repeat split; reflexivity. Qed.

(** *** The property update *)

(** C9.  [handleItemPropertyChange(prop, value)] hands [setItems] a list of
    the same length in which every position holds the item that was there,
    updated when its identifier is the selected one and untouched
    otherwise; so an item whose identifier differs from the selected one is
    unchanged, and with identifiers unique in the list every position other
    than that of the selected item is unchanged.  Nothing but [items]
    changes in the state. *)
Theorem handleItemPropertyChange_frame (r cur : State) (a : assignment) :
  let its := items r in
  let its' := items (handleItemPropertyChange r a cur) in
  length its' = length its
  ∧ (∀ idx, its' !! idx
            = (fun it => if is_item (selectedItem r) it then assign a it else it)
                <$> its !! idx)
  ∧ (∀ idx it, its !! idx = Some it → Some (i it) ≠ selectedItem r →
               its' !! idx = Some it)
  ∧ (NoDup (i <$> its) →
     ∀ j it, its !! j = Some it → Some (i it) = selectedItem r →
     ∀ j', j' ≠ j → its' !! j' = its !! j')
  ∧ handleItemPropertyChange r a cur = setItems its' cur.
Proof.
  intros its its'. subst its its'. simpl. unfold newItems.
  split; [apply length_map|].
  split; [intros idx; apply lookup_map|].
  split.
  { intros idx it Hit Hne. rewrite lookup_map, Hit. simpl.
    unfold is_item. by rewrite bool_decide_eq_false_2. }
  split; [|done].
  intros Hnd j it Hj Hsel j' Hne. rewrite lookup_map.
  destruct (items r !! j') as [it'|] eqn:Hj'; [|done]. simpl.
  unfold is_item. case_bool_decide as Hsel'; [|done].
  destruct Hne. apply (NoDup_lookup (i <$> items r) j' j (i it)); [done|..].
  - rewrite list_lookup_fmap, Hj'. simpl. congruence.
  - by rewrite list_lookup_fmap, Hj.
Qed.

(** The theorem on a list of three buttons with the second one selected:
    the first and the third button are untouched by a change of icon. *)
Lemma handleItemPropertyChange_frame_witness :
  let b := fun id => mkItem id 0 0 (Some "") (Some {["default" := ""]}) in
  let r := setSelectedItem (Some "b2") (setItems [b "b1"; b "b2"; b "b3"] initial) in
  let its' := items (handleItemPropertyChange r (SetIcon "↑") r) in
  its' !! 0 = Some (b "b1")
  ∧ its' !! 2 = items r !! 2
  ∧ its' !! 1 = Some (mkItem "b2" 0 0 (Some "↑") (Some {["default" := ""]})).
Proof.
  intros b r its'.
  destruct (handleItemPropertyChange_frame r r (SetIcon "↑"))
    as (_ & _ & Hother & Hone & _).
  split; [apply Hother; [reflexivity|discriminate]|].
  split; [|reflexivity].
  apply (Hone ltac:(vm_compute; repeat constructor; rewrite ?list_elem_of_In;
                    simpl; intuition discriminate)
              1 (b "b2") eq_refl eq_refl 2).
  discriminate.
Defined.

(** *** Deleting layouts *)

Lemma append_inj_r (p a b : string) : p +:+ a = p +:+ b → a = b.
Proof. induction p as [|c p IH]; simpl; [done|]. intros [= H]. by apply IH. Qed.

(** The guard of 'Delete Current Layout': a DELETE is sent only by a
    confirmed click on the button while it is rendered and enabled, and its
    address is the base, [/layouts/] and the text of the name box as it
    stands, not encoded. *)
Lemma delete_request_step env ev e r :
  r ∈ (handle env ev e).2 → meth r = DELETE →
  ev = DeleteClick true
  ∧ r = mkRequest DELETE
          (API_BASE_URL env +:+ "/layouts/" +:+ layoutName (st e)) None
  ∧ delete_button_rendered (st e) = true
  ∧ delete_button_disabled (st e) = false.
Proof.
  intros Hin Hm. destruct ev; simpl in Hin;
    repeat (case_match; simpl in Hin);
    try (by apply not_elem_of_nil in Hin);
    apply list_elem_of_singleton in Hin; subst r; try discriminate.
  match goal with H : _ && _ && _ = true |- _ =>
    apply andb_true_iff in H as [[Hr Hd]%andb_true_iff ->] end.
  split; [done|]. split; [done|].
  by apply negb_true_iff in Hd.
Qed.

(** C10 on the failing input: "Arrows?" is typed into the layout name box
    and 'Delete Current Layout' is clicked and confirmed.  The button is
    rendered and enabled, because the text of the box is not the text
    "Arrows"; the name goes into the address as it is, so the request is a
    DELETE of [http://localhost:8000/layouts/Arrows?], whose path is
    [/layouts/Arrows]: the layout named "Arrows".  The same happens with
    "Arrows#".  With the name "Arrows" itself the click sends nothing, and
    neither does a click that is not confirmed. *)
Theorem delete_reaches_Arrows :
  let deletes := fun e => filter (fun r => meth r = DELETE) (requests e) in
  let typed := fun name => run None [LayoutNameChange name] (init None) in
  let e := step None (DeleteClick true) (typed "Arrows?") in
  let e' := step None (DeleteClick true) (typed "Arrows#") in
  delete_button_rendered (st (typed "Arrows?")) = true
  ∧ delete_button_disabled (st (typed "Arrows?")) = false
  ∧ deletes e = [mkRequest DELETE "http://localhost:8000/layouts/Arrows?" None]
  ∧ Url.pathname <$> (url <$> deletes e) = ["/layouts/Arrows"]
  ∧ Url.pathname <$> (url <$> deletes e') = ["/layouts/Arrows"]
  ∧ delete_button_disabled (st (typed "Arrows")) = true
  ∧ deletes (step None (DeleteClick true) (typed "Arrows")) = []
  ∧ deletes (step None (DeleteClick false) (typed "Arrows?")) = [].
Proof. vm_compute. repeat split; reflexivity. Qed.

End EditorFacts.

(** ** Button labels in both views *)

Module ViewFacts.

(** C7.  For an item without an icon: when the [default] entry of its
    keybind table is empty or absent (or there is no table), the remote
    view and the editor canvas both show "N/A"; when it is a non-empty key
    identifier, both show that identifier. *)
Theorem button_label_without_icon (it : Item) :
  truthy_opt (icon it) = false →
  (truthy_opt (keybind_of it "default") = false →
     RemoteControl.button_content it = "N/A"
     ∧ Editor.button_content it = "N/A")
  ∧ (∀ k, keybind_of it "default" = Some k → k ≠ "" →
     RemoteControl.button_content it = k
     ∧ Editor.button_content it = k).
Proof.
  intros Hicon.
  unfold RemoteControl.button_content, Editor.button_content. rewrite Hicon.
  split.
  - intros Hd. unfold or_else, truthy_opt in *.
    destruct (keybind_of it "default") as [v|]; [|done]. by rewrite Hd.
  - intros k -> Hk. unfold or_else, truthy.
    by rewrite bool_decide_eq_false_2.
Qed.

(** The theorem on a freshly added button (empty icon, empty default key),
    on a button loaded without a keybind table, and on one bound to "w". *)
Lemma button_label_without_icon_witness :
  let fresh := mkItem "b1" 0 0 (Some "") (Some {["default" := ""]}) in
  let bare := mkItem "b2" 0 0 None None in
  let bound := mkItem "b3" 0 0 None (Some {["default" := "w"]}) in
  (RemoteControl.button_content fresh = "N/A" ∧ Editor.button_content fresh = "N/A")
  ∧ (RemoteControl.button_content bare = "N/A" ∧ Editor.button_content bare = "N/A")
  ∧ (RemoteControl.button_content bound = "w" ∧ Editor.button_content bound = "w").
Proof.
  intros fresh bare bound.
  split; [apply (proj1 (button_label_without_icon fresh eq_refl)); reflexivity|].
  split; [apply (proj1 (button_label_without_icon bare eq_refl)); reflexivity|].
  apply (proj2 (button_label_without_icon bound eq_refl) "w");
    [reflexivity|discriminate].
Defined.

End ViewFacts.

(** ** The remote client *)

Module RemoteControlFacts.
Import StringFacts.
Import RemoteControl.

Lemma frames_send_if_open data s :
  frames (send_if_open data s) = frames s ++ (if is_open s then [data] else []).
Proof.
  unfold send_if_open, frames, is_open.
  destruct (ws s) as [w|] eqn:Hws; [|by rewrite Hws].
  case_decide as Hopen; simpl.
  - by rewrite bool_decide_eq_true_2.
  - rewrite bool_decide_eq_false_2 by done. by rewrite Hws, app_nil_r.
Qed.

Lemma frames_set_socket_state st s : frames (set_socket_state st s) = frames s.
Proof.
  unfold set_socket_state, frames. by destruct (ws s) as [w|] eqn:Hws; [|rewrite Hws].
Qed.

Lemma frames_step ev s :
  frames (step ev s)
  = frames s ++ match frame_of ev s with
                | Some f => if is_open s then [f] else []
                | None => []
                end.
Proof.
  destruct ev; simpl;
    try (destruct (button s idx); simpl;
         [apply frames_send_if_open|by rewrite app_nil_r]);
    rewrite ?frames_set_socket_state, ?app_nil_r; try done.
  by destruct resp.
Qed.

Lemma frames_mount api host pid search : frames (mount api host pid search) = [].
Proof.
  unfold mount, frames. repeat case_match; simpl in *; simplify_eq; done.
Qed.

(** Characters [JSON.stringify] writes as they are inside a string: from
    the space on, except the quote and the backslash. *)
Lemma escape_all_plain (s : string) :
  forallb (fun c => (32 <=? N_of_ascii c)%N
                    && negb (bool_decide (c = "034"%char))
                    && negb (bool_decide (c = "092"%char)))
          (list_ascii_of_string s) = true →
  Json.escape_all s = s.
Proof.
  induction s as [|c s IH]; [done|]. cbn [list_ascii_of_string forallb].
  intros [[[Hc Hq]%andb_true_iff Hb]%andb_true_iff Hs]%andb_true_iff.
  cbn [Json.escape_all]. rewrite (IH Hs).
  apply negb_true_iff, bool_decide_eq_false in Hq, Hb.
  apply N.leb_le in Hc.
  assert (Hn : ∀ n, (n < 256)%N → N_of_ascii c = n → c = ascii_of_N n).
  { intros n _ <-. by rewrite ascii_N_embedding. }
  unfold Json.escape.
  repeat (rewrite bool_decide_eq_false_2;
          [|first [lia | intros Hx; apply Hn in Hx; [|lia];
                         first [by apply Hq | by apply Hb]]]).
  destruct (N_of_ascii c <? 32)%N eqn:Hlt; [apply N.ltb_lt in Hlt; lia|].
  reflexivity.
Qed.

(** C5.  A step of the remote client hands the socket at most one frame:
    the JSON text of [{itemId, action}] for the touched button, with action
    "down" for touch start and mouse down and "up" for touch end and mouse
    up, and only when the socket is OPEN; every other event, and every
    press or release while the socket is missing or not OPEN, sends
    nothing.  The text of the frame is spelled out: the two properties
    [itemId] and [action] in this order, the identifier of the button with
    the JSON escapes (itself, when it has nothing to escape; a quote, a
    backslash and a line feed each behind a backslash), and the word
    [down] or [up].  So every frame ever sent after mounting has that
    shape. *)
Theorem frames_are_item_messages :
  let q := String "034"%char "" in
  (∀ ev s,
     frames (step ev s)
     = frames s ++ match frame_of ev s with
                   | Some f => if is_open s then [f] else []
                   | None => []
                   end)
  ∧ (∀ ev s f, frame_of ev s = Some f →
       ∃ idx it, button s idx = Some it
         ∧ ((ev = TouchStart idx ∨ ev = MouseDown idx) ∧ f = message (i it) down
            ∨ (ev = TouchEnd idx ∨ ev = MouseUp idx) ∧ f = message (i it) up))
  ∧ (∀ id a,
       message id a
       = "{" +:+ q +:+ "itemId" +:+ q +:+ ":" +:+ q +:+ Json.escape_all id +:+ q
             +:+ "," +:+ q +:+ "action" +:+ q +:+ ":" +:+ q
             +:+ match a with
                 | down => "down"
                 | up => "up"
                 end
             +:+ q +:+ "}")
  ∧ (∀ id,
       forallb (fun c => (32 <=? N_of_ascii c)%N
                         && negb (bool_decide (c = "034"%char))
                         && negb (bool_decide (c = "092"%char)))
               (list_ascii_of_string id) = true →
       Json.escape_all id = id)
  ∧ Json.escape_all (String "034"%char (String "092"%char (String "010"%char "")))
    = String "092"%char
        (String "034"%char
           (String "092"%char (String "092"%char (String "092"%char "n"))))
  ∧ (∀ api host pid search evs f,
       f ∈ frames (run evs (mount api host pid search)) →
       ∃ id a, f = message id a).
Proof.
  intros q.
  split; [apply frames_step|]. split; [|split; [|split; [|split]]].
  - intros ev s f Hf.
    destruct ev; simpl in Hf; try done;
      destruct (button s idx) as [it|] eqn:Hb; simplify_eq; simpl;
      exists idx, it; naive_solver.
  - intros id a. subst q. unfold message, Json.stringify_object, Json.quote.
    cbn [map fst snd String.concat].
    replace (Json.escape_all "itemId") with "itemId" by (vm_compute; reflexivity).
    replace (Json.escape_all "action") with "action" by (vm_compute; reflexivity).
    replace (Json.escape_all (action_name a))
      with (match a with down => "down" | up => "up" end)
      by (destruct a; vm_compute; reflexivity).
    change Json.quote_char with "034"%char.
    repeat (rewrite ?append_cons, ?append_assoc, ?append_nil).
    reflexivity.
  - apply escape_all_plain.
  - vm_compute. reflexivity.
  - intros api host pid search evs.
    induction evs as [|ev evs IH] using rev_ind; intros f Hin.
    + unfold run in Hin. cbn [foldl] in Hin.
      rewrite frames_mount in Hin. by apply not_elem_of_nil in Hin.
    + unfold run in Hin. rewrite foldl_app in Hin. cbn [foldl] in Hin.
      fold (run evs (mount api host pid search)) in Hin, IH.
      rewrite frames_step in Hin.
      apply elem_of_app in Hin as [Hin|Hin]; [by apply IH|].
      destruct (frame_of ev _) as [f'|] eqn:Hf;
        [|by apply not_elem_of_nil in Hin].
      destruct (is_open _); [|by apply not_elem_of_nil in Hin].
      apply list_elem_of_singleton in Hin. subst f'.
      destruct ev; simpl in Hf; try done;
        destruct (button _ idx) as [it|]; simpl in Hf; simplify_eq; eauto.
Qed.

(** The theorem on a session that presses before the socket is open (nothing
    is sent), then presses and releases the button once it is: the two
    frames, letter by letter. *)
Lemma frames_are_item_messages_witness :
  let q := String "034"%char "" in
  let items := [mkItem "up-btn" 0 0 None (Some {["default" := "ArrowUp"]})] in
  let evs := [LayoutResponse (Some items); TouchStart 0; TouchEnd 0;
              SocketState OPEN; TouchStart 0; TouchEnd 0] in
  let s := run evs (mount "http://localhost:8000" "host" "1" "?layout=Arrows") in
  frames s
  = ["{" +:+ q +:+ "itemId" +:+ q +:+ ":" +:+ q +:+ "up-btn" +:+ q +:+ ","
         +:+ q +:+ "action" +:+ q +:+ ":" +:+ q +:+ "down" +:+ q +:+ "}";
     "{" +:+ q +:+ "itemId" +:+ q +:+ ":" +:+ q +:+ "up-btn" +:+ q +:+ ","
         +:+ q +:+ "action" +:+ q +:+ ":" +:+ q +:+ "up" +:+ q +:+ "}"]
  ∧ Json.escape_all "up-btn" = "up-btn"
  ∧ (∃ id a, message "up-btn" up = message id a)
  ∧ ∃ idx it, button s idx = Some it
      ∧ ((MouseDown 0 = TouchStart idx ∨ MouseDown 0 = MouseDown idx)
         ∧ message "up-btn" down = message (i it) down
         ∨ (MouseDown 0 = TouchEnd idx ∨ MouseDown 0 = MouseUp idx)
           ∧ message "up-btn" down = message (i it) up).
Proof.
  intros q items evs s.
  destruct frames_are_item_messages as (_ & Hshape & Htext & Hplain & _ & Hall).
  assert (Hid : Json.escape_all "up-btn" = "up-btn").
  { apply Hplain. vm_compute. reflexivity. }
  assert (Hframes : frames s = [message "up-btn" down; message "up-btn" up]).
  { vm_compute. reflexivity. }
  split.
  { rewrite Hframes, !Htext, Hid. reflexivity. }
  split; [exact Hid|]. split.
  - apply (Hall "http://localhost:8000" "host" "1" "?layout=Arrows" evs).
    fold s. rewrite Hframes. rewrite !elem_of_cons. auto.
  - apply (Hshape (MouseDown 0) s). vm_compute. reflexivity.
Defined.

End RemoteControlFacts.

(** ** Addresses: the join link and the socket address *)

Module UrlFacts.
Import StringFacts.
Import Url.

Ltac by_cases_on_byte c :=
  destruct c as [[] [] [] [] [] [] [] []]; vm_compute; intuition discriminate.
















(** C6 on the failing input: the layout named "a&b", player 1.  The join
    link encodes the name and the page of the remote reads it back intact,
    but the socket address is built from the decoded name without encoding
    it again, so the query the server decodes yields the layout name "a".
    The player number is whatever [parseInt] makes of the path segment: for
    [/remote/abc] the address is [/ws/NaN], for [/remote/0] it is [/ws/0],
    neither of them a positive integer. *)
Theorem layout_name_lost_in_wsUrl :
  let link := JoinScreen.remoteUrl "http://192.168.1.5:5173" 1 "a&b" in
  let page := fun seg =>
    RemoteControl.mount "http://localhost:8000" "192.168.1.5" seg (search link) in
  let address := fun seg => RemoteControl.url <$> RemoteControl.ws (page seg) in
  link = "http://192.168.1.5:5173/remote/1?layout=a%26b"
  ∧ searchParams_get "layout" (search link) = Some "a&b"
  ∧ address "1" = Some "ws://192.168.1.5:8000/ws/1?layout=a&b"
  ∧ (address "1" ≫= Server.layoutName) = Some "a"
  ∧ (address "1" ≫= Server.playerId) = Some 1%Z
  ∧ address "abc" = Some "ws://192.168.1.5:8000/ws/NaN?layout=a&b"
  ∧ (address "abc" ≫= Server.playerId) = None
  ∧ address "0" = Some "ws://192.168.1.5:8000/ws/0?layout=a&b"
  ∧ (address "0" ≫= Server.playerId) = None.
Proof. vm_compute. repeat split; reflexivity. Qed.

End UrlFacts.

(** * Part III: further properties of the code *)

(** ** The layout editor: listener, selection, removal *)

Module EditorProperties.
Import StringFacts.
Import Editor EditorFacts.

Lemma capture_idle_iff s :
  capture_of s = Idle ↔ isBindingKey s = false ∧ isSettingLabel s = false.
Proof.
  unfold capture_of. destruct (isBindingKey s), (isSettingLabel s); naive_solver.
Qed.

Lemma listener_of_ok e :
  listener_ok e →
  (is_Some (listener e) ↔ capture_of (st e) ≠ Idle)
  ∧ (∀ r, listener e = Some r → deps r = deps (st e)).
Proof.
  intros [_ Hl]. rewrite capture_idle_iff. destruct (listener e) as [r|].
  - destruct Hl as (Hr & Hf & _). split; [|by intros ? [= <-]].
    split; [|eauto]. intros _ [Hb Hs]. unfold deps in Hr.
    injection Hr as Hb' Hs' _. rewrite Hb', Hs', Hb, Hs in Hf. discriminate.
  - split; [|done]. split; [by intros [? ?]|]. intros H. by destruct H.
Qed.

(** In every state the editor can reach, a [keydown] listener is registered
    on [window] exactly while a capture is pending, and it belongs to a
    render with the current flags and selection.  While the machine is
    idle, or while nothing is selected, a key press is delivered to the
    page and changes nothing. *)
Theorem listener_tracks_capture (env : option string) (evs : list event)
    (key : string) :
  let e := run env evs (init env) in
  (is_Some (listener e) ↔ capture_of (st e) ≠ Idle)
  ∧ (∀ r, listener e = Some r → deps r = deps (st e))
  ∧ (capture_of (st e) = Idle →
     dispatchKeyDown e key = Delivered ∧ st (step env (KeyDown key) e) = st e)
  ∧ (selectedItem (st e) = None →
     dispatchKeyDown e key = Delivered ∧ st (step env (KeyDown key) e) = st e).
Proof.
  intros e.
  pose proof (listener_ok_run env evs _ (listener_ok_init env)) as Hok.
  fold e in Hok. destruct (listener_of_ok e Hok) as [Hiff Hdeps].
  split; [done|]. split; [done|]. split.
  - intros Hidle. rewrite st_step. unfold dispatchKeyDown. simpl.
    destruct (listener e) as [r|] eqn:Hl; [|done].
    exfalso. apply (proj1 Hiff); eauto.
  - intros Hnone. rewrite st_step. unfold dispatchKeyDown. simpl.
    destruct (listener e) as [r|] eqn:Hl; [|done].
    specialize (Hdeps r eq_refl). unfold deps in Hdeps.
    injection Hdeps as _ _ Hsel. rewrite Hnone in Hsel.
    unfold handleKeyDown. rewrite Hsel. simpl. by rewrite !andb_false_r.
Qed.

(** The theorem after a capture was begun and the selected button removed:
    the listener is still there but the key press goes to the page; and on
    the idle editor. *)
Lemma listener_tracks_capture_witness :
  let click := mkMouse 0 10 10 (mkRect 0 0 800 600) in
  let evs := [AddItemClick "x"; ItemMouseDown 0 click; MouseUp; SetLabelClick;
              RemoveClick 0] in
  dispatchKeyDown (run None evs (init None)) "a" = Delivered
  ∧ dispatchKeyDown (run None [AddItemClick "x"] (init None)) "a" = Delivered.
Proof.
  intros click evs. split.
  - destruct (listener_tracks_capture None evs "a") as (_ & _ & _ & Hnone).
    apply Hnone. vm_compute. reflexivity.
  - destruct (listener_tracks_capture None [AddItemClick "x"] "a")
      as (_ & _ & Hidle & _).
    apply Hidle. vm_compute. reflexivity.
Defined.

(** A mouse press on a button of the canvas selects it and cancels a
    pending capture: both flags are cleared, the binding player is back to
    [default], the listener is removed, and the next key press is delivered
    to the page. *)
Theorem select_cancels_capture (env : option string) (e : Editor) (idx : nat)
    (it : Item) (m : Mouse) (key : string) :
  listener_ok e →
  items (st e) !! idx = Some it →
  let e' := step env (ItemMouseDown idx m) e in
  selectedItem (st e') = Some (i it)
  ∧ capture_of (st e') = Idle
  ∧ bindingPlayer (st e') = "default"
  ∧ items (st e') = items (st e)
  ∧ listener e' = None
  ∧ dispatchKeyDown e' key = Delivered.
Proof.
  intros Hok Hit e'.
  assert (Hst : st e' = handleDragStart m it (handleItemClick (i it) (st e))).
  { unfold e'. rewrite st_step. simpl. by rewrite Hit. }
  assert (Hfields : selectedItem (st e') = Some (i it)
                    ∧ isBindingKey (st e') = false
                    ∧ isSettingLabel (st e') = false
                    ∧ bindingPlayer (st e') = "default"
                    ∧ items (st e') = items (st e)).
  { rewrite Hst. unfold handleDragStart. by case_decide. }
  destruct Hfields as (Hsel & Hb & Hl & Hp & Hits).
  assert (Hidle : capture_of (st e') = Idle) by (by apply capture_idle_iff).
  pose proof (listener_ok_step env (ItemMouseDown idx m) e Hok) as Hok'.
  fold e' in Hok'. destruct (listener_of_ok e' Hok') as [Hiff _].
  assert (Hnone : listener e' = None).
  { destruct (listener e') as [r|] eqn:Hr; [|done].
    exfalso. apply (proj1 Hiff); eauto. }
  repeat split; try done. unfold dispatchKeyDown. by rewrite Hnone.
Qed.

(** The theorem on a button selected while the label of another one is
    awaited. *)
Lemma select_cancels_capture_witness :
  let click := mkMouse 0 10 10 (mkRect 0 0 800 600) in
  let e := run None [AddItemClick "x"; AddItemClick "y"; ItemMouseDown 0 click;
                     MouseUp; SetLabelClick] (init None) in
  capture_of (st e) = AwaitingLabel
  ∧ selectedItem (st (step None (ItemMouseDown 1 click) e)) = Some "y"
  ∧ listener (step None (ItemMouseDown 1 click) e) = None.
Proof.
  intros click e. split; [vm_compute; reflexivity|].
  assert (Hok : listener_ok e).
  { apply listener_ok_run, listener_ok_init. }
  destruct (select_cancels_capture None e 1
              (mkItem "y" 0 0 (Some "") (Some {["default" := ""]})) click "a" Hok)
    as (Hsel & _ & _ & _ & Hl & _).
  { vm_compute. reflexivity. }
  split; [exact Hsel|exact Hl].
Defined.

(** Removing a button with its 'x' removes every item with that
    identifier and nothing else: the remaining items keep their order, the
    list gets shorter, and the selection is cleared exactly when it named
    the removed button, so it never names it afterwards. *)
Theorem remove_click_effect (env : option string) (e : Editor) (idx : nat)
    (it : Item) :
  items (st e) !! idx = Some it →
  let e' := step env (RemoveClick idx) e in
  (∀ x, x ∈ items (st e') ↔ x ∈ items (st e) ∧ i x ≠ i it)
  ∧ items (st e') `sublist_of` items (st e)
  ∧ length (items (st e')) < length (items (st e))
  ∧ selectedItem (st e')
    = (if decide (selectedItem (st e) = Some (i it)) then None
       else selectedItem (st e))
  ∧ selectedItem (st e') ≠ Some (i it)
  ∧ (selection_valid (st e) → selection_valid (st e')).
Proof.
  intros Hit e'.
  assert (Hst : st e' = onRemoveItem (st e) (i it) (st e)).
  { unfold e'. rewrite st_step. simpl. by rewrite Hit. }
  assert (Hits : items (st e') = filter (fun x => i x ≠ i it) (items (st e))).
  { rewrite Hst. unfold onRemoveItem. by case_decide. }
  assert (Hsel : selectedItem (st e')
                 = if decide (selectedItem (st e) = Some (i it)) then None
                   else selectedItem (st e)).
  { rewrite Hst. unfold onRemoveItem. by case_decide. }
  split; [|split; [|split; [|split; [|split]]]].
  - intros x. rewrite Hits, list_elem_of_filter. tauto.
  - rewrite Hits. apply sublist_filter.
  - rewrite Hits. apply (length_filter_lt _ _ it); [|tauto].
    apply list_elem_of_lookup. eauto.
  - exact Hsel.
  - rewrite Hsel. by case_decide.
  - intros Hvalid id. rewrite Hsel. case_decide as Hd; [done|].
    intros Hid. specialize (Hvalid id Hid).
    apply list_elem_of_fmap in Hvalid as (x & -> & Hx).
    apply list_elem_of_fmap. exists x. split; [done|].
    rewrite Hits, list_elem_of_filter. split; [|done].
    intros Heq. apply Hd. rewrite Hid. by f_equal.
Qed.

(** The theorem on the removal of the selected one of two buttons. *)
Lemma remove_click_effect_witness :
  let click := mkMouse 0 10 10 (mkRect 0 0 800 600) in
  let e := run None [AddItemClick "x"; AddItemClick "y"; ItemMouseDown 0 click;
                     MouseUp] (init None) in
  let e' := step None (RemoveClick 0) e in
  selectedItem (st e') = None
  ∧ length (items (st e')) < 2
  ∧ selection_valid (st e').
Proof.
  intros click e e'.
  destruct (remove_click_effect None e 0
              (mkItem "x" 0 0 (Some "") (Some {["default" := ""]})))
    as (_ & _ & Hlen & Hsel & _ & Hvalid).
  { vm_compute. reflexivity. }
  split; [exact Hsel|]. split; [exact Hlen|].
  apply Hvalid. intros id [= <-]. vm_compute. apply list_elem_of_here.
Defined.

(** *** The selection stays within the list *)

Lemma ids_map_preserve (f : Item → Item) (l : list Item) :
  (∀ x, i (f x) = i x) → i <$> map f l = i <$> l.
Proof.
  intros Hf. induction l as [|x l IH]; [done|].
  cbn [map]. by rewrite !fmap_cons, Hf, IH.
Qed.

Lemma ids_newItems its sel a :
  (∀ x, i (assign a x) = i x) → i <$> newItems its sel a = i <$> its.
Proof.
  intros Ha. unfold newItems. apply ids_map_preserve.
  intros x. by destruct (is_item sel x).
Qed.

Lemma selectedItemData_is_Some s id :
  selectedItem s = Some id →
  (id ∈ (i <$> items s) ↔ is_Some (selectedItemData s)).
Proof.
  intros Hsel. unfold selectedItemData. rewrite Hsel.
  induction (items s) as [|x l IH]; simpl.
  - split; [by intros ?%not_elem_of_nil|by intros [? ?]].
  - rewrite elem_of_cons. unfold is_item at 1. case_bool_decide as Hx.
    + split; [eauto|]. intros _. left. congruence.
    + rewrite <- IH. split; [|tauto]. intros [->|?]; [done|tauto].
Qed.

Lemma selection_valid_onRemoveItem s id :
  selection_valid s → selection_valid (onRemoveItem s id s).
Proof.
  intros Hvalid id'. unfold onRemoveItem.
  case_decide as Hd; simpl; [done|].
  intros Hid. specialize (Hvalid id' Hid).
  apply list_elem_of_fmap in Hvalid as (x & -> & Hx).
  apply list_elem_of_fmap. exists x. split; [done|].
  rewrite list_elem_of_filter. split; [|done].
  intros Heq. apply Hd. rewrite Hid. by f_equal.
Qed.

Lemma selection_valid_handleKeyDown r key s :
  selectedItem r = selectedItem s → selection_valid r → selection_valid s →
  selection_valid (handleKeyDown r key s).2.
Proof.
  intros Hsel Hr Hs. unfold handleKeyDown.
  destruct (isBindingKey r && truthy_opt (selectedItem r)).
  { destruct (selectedItemData r); [|done].
    intros id Hid. simpl in Hid.
    unfold setIsSettingLabel, setIsBindingKey, handleItemPropertyChange, setItems.
    cbn [snd items]. rewrite ids_newItems by done.
    apply Hr. by rewrite Hsel. }
  destruct (isSettingLabel r && truthy_opt (selectedItem r)); [|done].
  intros id Hid. simpl in Hid.
  unfold setIsSettingLabel, handleItemPropertyChange, setItems.
  cbn [snd items]. rewrite ids_newItems by done.
  apply Hr. by rewrite Hsel.
Qed.

Lemma selection_valid_handle env ev e :
  replaces_layout ev = false →
  listener_ok e → selection_valid (st e) →
  (∀ r, listener e = Some r → selection_valid r) →
  selection_valid (handle env ev e).1.
Proof.
  intros Hev Hok Hs Hr. destruct ev; simpl in *; try done.
  - intros id Hid. simpl in Hid. unfold onAddItem, setItems. cbn [fst items].
    rewrite fmap_app, elem_of_app. left. by apply Hs.
  - destruct (items (st e) !! idx); [|done]. simpl.
    by apply selection_valid_onRemoveItem.
  - destruct (items (st e) !! idx) as [it|] eqn:Hit; [|done]. simpl.
    assert (Hin : i it ∈ (i <$> items (st e))).
    { apply list_elem_of_fmap_2, list_elem_of_lookup. eauto. }
    unfold handleDragStart. case_decide; intros id [= <-]; exact Hin.
  - unfold handleDrag. destruct (dragging (st e)); [|done].
    intros id Hid. simpl in Hid. unfold setItems. cbn [fst negb items].
    rewrite ids_map_preserve; [by apply Hs|].
    intros x. by destruct (is_item _ x).
  - by destruct (selectedItemData (st e)).
  - destruct (selectedItemData (st e)); [|done]. by case_bool_decide.
  - destruct (listener e) as [r|] eqn:Hl; [|done].
    apply selection_valid_handleKeyDown; [|by apply Hr|done].
    destruct (listener_of_ok e Hok) as [_ Hdeps].
    specialize (Hdeps r Hl). unfold deps in Hdeps. by injection Hdeps.
  - by destruct (truthy (layoutName (st e))).
  - by case_bool_decide.
  - by destruct resp.
  - by destruct (_ && _ && _).
  - by destruct ok.
  - by destruct data.
Qed.

Lemma selection_valid_step env ev e :
  replaces_layout ev = false →
  listener_ok e → selection_valid (st e) →
  (∀ r, listener e = Some r → selection_valid r) →
  selection_valid (st (step env ev e))
  ∧ (∀ r, listener (step env ev e) = Some r → selection_valid r).
Proof.
  intros Hev Hok Hs Hr.
  pose proof (selection_valid_handle env ev e Hev Hok Hs Hr) as Hs'.
  rewrite st_step. split; [done|].
  unfold step. destruct (handle env ev e) as [s' reqs]. simpl in Hs'.
  unfold commit. case_decide; simpl; [done|].
  intros r. destruct (isBindingKey s' || isSettingLabel s'); [|done].
  by intros [= <-].
Qed.

(** As long as no layout is loaded or deleted, the selected identifier
    always names a button of the list, so the item-properties panel is
    shown for it: adding, removing, dragging, the capture buttons and key
    presses (even handled by an older listener) keep the selection inside
    the list. *)
Theorem selection_valid_without_load (env : option string) (evs : list event) :
  forallb (fun ev => negb (replaces_layout ev)) evs = true →
  let e := run env evs (init env) in
  selection_valid (st e)
  ∧ (∀ id, selectedItem (st e) = Some id → is_Some (selectedItemData (st e))).
Proof.
  intros Hevs e.
  assert (H : listener_ok e ∧ selection_valid (st e)
              ∧ (∀ r, listener e = Some r → selection_valid r)).
  { subst e. revert Hevs.
    assert (Hinit : listener_ok (init env) ∧ selection_valid (st (init env))
                    ∧ (∀ r, listener (init env) = Some r → selection_valid r)).
    { split; [apply listener_ok_init|]. split; [by intros id|by intros r]. }
    revert Hinit. generalize (init env) as e.
    induction evs as [|ev evs IH]; intros e Hinv Hevs; [done|].
    simpl in *. apply andb_true_iff in Hevs as [Hev Hevs].
    apply negb_true_iff in Hev. destruct Hinv as (Hok & Hs & Hr).
    apply IH; [|done]. split; [by apply listener_ok_step|].
    by apply selection_valid_step. }
  destruct H as (_ & Hs & _). split; [done|].
  intros id Hid. apply (selectedItemData_is_Some _ id Hid). by apply Hs.
Qed.

(** The theorem on a session that adds two buttons, starts a label capture
    on the first, adds a third button and presses a key. *)
Lemma selection_valid_without_load_witness :
  let click := mkMouse 0 10 10 (mkRect 0 0 800 600) in
  let evs := [AddItemClick "x"; AddItemClick "y"; ItemMouseDown 0 click; MouseUp;
              SetLabelClick; AddItemClick "z"; KeyDown "a"] in
  is_Some (selectedItemData (st (run None evs (init None)))).
Proof.
  intros click evs.
  destruct (selection_valid_without_load None evs) as [_ H].
  - vm_compute. reflexivity.
  - apply (H "x"). vm_compute. reflexivity.
Defined.

(** *** A capture from start to end *)

Lemma commit_changed s' reqs e :
  deps s' ≠ effect_deps e →
  commit s' reqs e
  = mkEditor s' (if isBindingKey s' || isSettingLabel s' then Some s' else None)
             (deps s') (requests e ++ reqs).
Proof. intros Hne. unfold commit. by case_decide. Qed.

(** From the idle editor with a button selected, 'Set <player> Keybind'
    followed by two key presses runs the whole capture: the first key is
    intercepted and becomes the button's keybind for that player, the
    second (a key whose name is not that of a member of
    [Object.prototype]) is intercepted and becomes its icon (the glyph of
    [keyToIconMap] or the key itself), the machine is idle again with the
    listener removed, and the other buttons are as they were. *)
Theorem capture_flow_from_idle (env : option string) (e : Editor)
    (p key key' id : string) :
  listener_ok e → capture_of (st e) = Idle →
  selectedItem (st e) = Some id → id ≠ "" → id ∈ (i <$> items (st e)) →
  p ∈ players → inherited key' = false →
  let e1 := step env (SetKeybindClick p) e in
  let e2 := step env (KeyDown key) e1 in
  let e3 := step env (KeyDown key') e2 in
  capture_of (st e1) = AwaitingKeybind p
  ∧ dispatchKeyDown e1 key = Intercepted
  ∧ capture_of (st e2) = AwaitingLabel
  ∧ dispatchKeyDown e2 key' = Intercepted
  ∧ capture_of (st e3) = Idle
  ∧ listener e3 = None
  ∧ i <$> items (st e3) = i <$> items (st e)
  ∧ (∀ it, it ∈ items (st e3) → i it = id →
       keybind_of it p = Some key
       ∧ icon it = Some (or_else (keyToIconMap !! key') key'))
  ∧ (∀ idx it, items (st e) !! idx = Some it → i it ≠ id →
       items (st e3) !! idx = Some it).
Proof.
  intros [Hd _] Hidle Hsel Hid Hin Hp _ e1 e2 e3.
  apply capture_idle_iff in Hidle as [Hb Hl].
  assert (Hdata : is_Some (selectedItemData (st e))).
  { by apply (selectedItemData_is_Some _ id). }
  destruct Hdata as [d Hdata].
  assert (Htr : truthy_opt (Some id) = true).
  { simpl. unfold truthy. by rewrite bool_decide_eq_false_2. }
  set (s1 := setIsBindingKey true (setBindingPlayer p (st e))).
  assert (H1 : e1 = mkEditor s1 (Some s1) (deps s1) (requests e ++ [])).
  { unfold e1, step. simpl. rewrite Hdata, bool_decide_eq_true_2 by done.
    rewrite commit_changed; [done|].
    rewrite Hd. unfold deps. simpl. rewrite Hb. discriminate. }
  set (kb := <[p := key]> (default ∅ (keybinds d))).
  set (s2 := setIsSettingLabel true
               (setIsBindingKey false
                  (handleItemPropertyChange s1 (SetKeybinds kb) s1))).
  assert (Hk1 : handleKeyDown s1 key s1 = (Intercepted, s2)).
  { unfold handleKeyDown. simpl. rewrite Hsel, Htr. simpl.
    unfold selectedItemData in *. simpl. by rewrite Hdata. }
  assert (H2 : e2 = mkEditor s2 (Some s2) (deps s2) ((requests e ++ []) ++ [])).
  { unfold e2, step. rewrite H1. simpl. rewrite Hk1. simpl.
    rewrite commit_changed; [done|]. simpl. discriminate. }
  set (ic := or_else (keyToIconMap !! key') key').
  set (s3 := setIsSettingLabel false (handleItemPropertyChange s2 (SetIcon ic) s2)).
  assert (Hk2 : handleKeyDown s2 key' s2 = (Intercepted, s3)).
  { unfold handleKeyDown. simpl. rewrite Hsel, Htr. done. }
  assert (H3 : e3 = mkEditor s3 None (deps s3)
                      (((requests e ++ []) ++ []) ++ [])).
  { unfold e3, step. rewrite H2. simpl. rewrite Hk2. simpl.
    rewrite commit_changed; [done|]. simpl. discriminate. }
  assert (Hits3 : items (st e3)
                  = newItems (newItems (items (st e)) (Some id) (SetKeybinds kb))
                             (Some id) (SetIcon ic)).
  { rewrite H3. simpl. by rewrite Hsel. }
  split; [by rewrite H1|].
  split; [unfold dispatchKeyDown; by rewrite H1; simpl; rewrite Hk1|].
  split; [by rewrite H2|].
  split; [unfold dispatchKeyDown; by rewrite H2; simpl; rewrite Hk2|].
  split; [by rewrite H3|].
  split; [by rewrite H3|].
  split; [by rewrite Hits3, !ids_newItems|].
  split.
  - intros it. rewrite Hits3.
    intros (it1 & Hin1 & ->)%elem_of_newItems.
    apply elem_of_newItems in Hin1 as (it0 & Hin0 & ->).
    unfold is_item. intros Hit.
    destruct (bool_decide (Some (i it0) = Some id)) eqn:H0; simpl in *.
    + rewrite H0. simpl. split; [|done].
      unfold keybind_of. simpl. apply lookup_insert_eq.
    + rewrite H0 in Hit. apply bool_decide_eq_false in H0.
      destruct H0. by f_equal.
  - intros idx it Hit Hne. rewrite Hits3. unfold newItems.
    assert (Hno : is_item (Some id) it = false).
    { unfold is_item. apply bool_decide_eq_false_2. by intros [= ?]. }
    rewrite !lookup_map, Hit. simpl. by rewrite Hno, Hno.
Qed.

(** The theorem on two buttons: the first is selected, bound to "w" for
    player 2 and labelled with the up arrow. *)
Lemma capture_flow_from_idle_witness :
  let click := mkMouse 0 10 10 (mkRect 0 0 800 600) in
  let e := run None [AddItemClick "x"; AddItemClick "y"; ItemMouseDown 0 click;
                     MouseUp] (init None) in
  let e3 := run None [SetKeybindClick "player2"; KeyDown "w"; KeyDown "ArrowUp"] e in
  capture_of (st e3) = Idle
  ∧ i <$> items (st e3) = ["x"; "y"]
  ∧ items (st e3) !! 1 = items (st e) !! 1
  ∧ (∀ it, it ∈ items (st e3) → i it = "x" →
       keybind_of it "player2" = Some "w" ∧ icon it = Some "↑").
Proof.
  intros click e e3.
  assert (Hok : listener_ok e) by apply listener_ok_run, listener_ok_init.
  destruct (capture_flow_from_idle None e "player2" "w" "ArrowUp" "x" Hok)
    as (_ & _ & _ & _ & Hidle & _ & Hids & Hsel & Hother).
  - vm_compute. reflexivity.
  - vm_compute. reflexivity.
  - discriminate.
  - vm_compute. apply list_elem_of_here.
  - unfold players. rewrite !elem_of_cons. auto.
  - vm_compute. reflexivity.
  - split; [exact Hidle|]. split; [exact Hids|]. split; [|exact Hsel].
    apply (Hother 1); [vm_compute; reflexivity|discriminate].
Defined.

(** *** Dragging *)

(** Pressing the left mouse button on a canvas button and moving the mouse
    (integer coordinates, the canvas not moving) puts every item with that
    identifier where the pressed button was plus the displacement of the
    mouse, clamped to the canvas less the 80 pixels of a button; nothing
    else about the items changes, and the button stays selected.  Once
    the mouse is released, moving it changes nothing. *)
Theorem drag_moves_by_displacement (env : option string) (e : Editor)
    (idx : nat) (it : Item) (m m' : Mouse) :
  items (st e) !! idx = Some it →
  button m = 0%Z → canvasRect m' = canvasRect m →
  let e1 := step env (ItemMouseDown idx m) e in
  let e2 := step env (MouseMove m') e1 in
  let e3 := step env MouseUp e2 in
  let nx := clamp (width (canvasRect m)) (x it + (clientX m' - clientX m)) in
  let ny := clamp (height (canvasRect m)) (y it + (clientY m' - clientY m)) in
  items (st e2)
  = map (fun o => if bool_decide (i o = i it)
                  then mkItem (i o) nx ny (icon o) (keybinds o) else o)
        (items (st e))
  ∧ items (st e2) !! idx = Some (mkItem (i it) nx ny (icon it) (keybinds it))
  ∧ (0 ≤ nx ∧ 0 ≤ ny)%Z
  ∧ (80 ≤ width (canvasRect m) → nx ≤ width (canvasRect m) - 80)%Z
  ∧ (80 ≤ height (canvasRect m) → ny ≤ height (canvasRect m) - 80)%Z
  ∧ selectedItem (st e2) = Some (i it)
  ∧ st (step env (MouseMove m') e3) = st e3.
Proof.
  intros Hit Hbtn Hrect e1 e2 e3 nx ny.
  assert (H1 : st e1 = handleDragStart m it (handleItemClick (i it) (st e))).
  { unfold e1. rewrite st_step. simpl. by rewrite Hit. }
  assert (H2 : st e2 = handleDrag (st e1) m' (st e1)).
  { unfold e2. by rewrite st_step. }
  assert (H3 : st e3 = handleDragEnd (st e2)).
  { unfold e3. by rewrite st_step. }
  unfold handleDragStart in H1. rewrite decide_False in H1 by (by intros ?).
  assert (Hitems : items (st e2)
    = map (fun o => if bool_decide (i o = i it)
                    then mkItem (i o) nx ny (icon o) (keybinds o) else o)
          (items (st e))).
  { rewrite H2, H1. unfold handleDrag. simpl. apply map_ext. intros o.
    unfold is_item. rewrite Hrect.
    rewrite (bool_decide_ext (Some (i o) = Some (i it)) (i o = i it))
      by (split; [by intros [= ?]|by intros ->]).
    case_bool_decide; [|done]. unfold nx, ny, clamp. f_equal; f_equal; lia. }
  split; [exact Hitems|].
  split.
  { rewrite Hitems, lookup_map, Hit. simpl. by rewrite bool_decide_eq_true_2. }
  split; [unfold nx, ny, clamp; lia|].
  split; [unfold nx, clamp; lia|].
  split; [unfold ny, clamp; lia|].
  split.
  { rewrite H2, H1. unfold handleDrag. simpl. done. }
  rewrite st_step. simpl. rewrite H3. unfold handleDrag. simpl. done.
Qed.

(** The theorem on a button at the origin dragged 30 to the right and far
    beyond the bottom of an 800 by 600 canvas. *)
Lemma drag_moves_by_displacement_witness :
  let rect := mkRect 0 0 800 600 in
  let e := run None [AddItemClick "x"] (init None) in
  let e2 := run None [ItemMouseDown 0 (mkMouse 0 10 10 rect);
                      MouseMove (mkMouse 0 40 900 rect)] e in
  items (st e2) !! 0
  = Some (mkItem "x" 30 520 (Some "") (Some {["default" := ""]})).
Proof.
  intros rect e e2.
  destruct (drag_moves_by_displacement None e 0
              (mkItem "x" 0 0 (Some "") (Some {["default" := ""]}))
              (mkMouse 0 10 10 rect) (mkMouse 0 40 900 rect))
    as (_ & Hidx & _); [vm_compute; reflexivity|reflexivity|reflexivity|].
  exact Hidx.
Defined.

(** *** Requests *)

(** Only the layout controls reach the network.  An event other than
    'Save Layout', a choice in the load select, a confirmed 'Delete Current
    Layout' and the successful answers to a save and a deletion sends
    nothing: adding, removing, selecting and dragging buttons, the capture
    clicks, key presses and typing a name leave the requests as they are.
    Every event sends at most one request.  'Save Layout' with an empty
    name sends nothing; with a name it hands [fetch] one POST of the
    current items at the address made of the base, [/layouts/] and the name
    as typed, and leaves the state as it is; after a successful save the
    list of layouts is fetched again. *)
Theorem requests_only_from_layout_controls (env : option string) :
  (∀ ev e, calls_fetch ev = false → requests (step env ev e) = requests e)
  ∧ (∀ ev e, ∃ new, requests (step env ev e) = requests e ++ new
                    ∧ (List.length new ≤ 1)%nat)
  ∧ (∀ e, layoutName (st e) = "" →
       requests (step env SaveClick e) = requests e
       ∧ st (step env SaveClick e) = st e)
  ∧ (∀ e, layoutName (st e) ≠ "" →
       requests (step env SaveClick e)
       = requests e ++ [mkRequest POST
                          (API_BASE_URL env +:+ "/layouts/" +:+ layoutName (st e))
                          (Some (items (st e)))]
       ∧ st (step env SaveClick e) = st e)
  ∧ (∀ e, requests (step env (SaveResponse true) e)
          = requests e ++ [mkRequest GET (API_BASE_URL env +:+ "/layouts") None]).
Proof.
  split; [|split; [|split; [|split]]].
  - intros ev e Hev. rewrite requests_step.
    destruct ev as [| | | | | | | | | |[|]| | |[|]|[|]|]; simpl in *;
      try discriminate; rewrite ?andb_false_r; repeat case_match; simpl;
      by rewrite app_nil_r.
  - intros ev e. exists (handle env ev e).2. split; [apply requests_step|].
    destruct ev; simpl; repeat case_match; simpl; lia.
  - intros e Hname. rewrite requests_step, st_step. simpl.
    rewrite Hname. simpl. by rewrite app_nil_r.
  - intros e Hname. rewrite requests_step, st_step. simpl.
    unfold truthy. by rewrite bool_decide_eq_false_2.
  - intros e. by rewrite requests_step.
Qed.

(** The theorem on an editor in which a button is added and a key is
    pressed (nothing is sent), that saves without a name (nothing is sent),
    then as "Mine". *)
Lemma requests_only_from_layout_controls_witness :
  let e := run None [AddItemClick "x"] (init None) in
  requests (step None (KeyDown "k") e) = requests e
  ∧ requests (step None SaveClick e) = requests e
  ∧ requests (run None [LayoutNameChange "Mine"; SaveClick] e)
    = [fetchLayouts None;
       mkRequest POST "http://localhost:8000/layouts/Mine" (Some (items (st e)))].
Proof.
  intros e.
  destruct (requests_only_from_layout_controls None)
    as (Hquiet & _ & Hempty & Hsave & _).
  split; [apply (Hquiet (KeyDown "k") e); reflexivity|].
  split; [apply (Hempty e); reflexivity|].
  destruct (Hsave (step None (LayoutNameChange "Mine") e)) as [Hreq _];
    [discriminate|].
  exact Hreq.
Defined.

End EditorProperties.

(** ** What a button shows *)

Module ViewProperties.
Import StringFacts.

Lemma keyToIconMap_nonempty key v : Editor.keyToIconMap !! key = Some v → v ≠ "".
Proof.
  intros Hv. unfold Editor.keyToIconMap in Hv.
  apply elem_of_list_to_map_2 in Hv.
  repeat (apply elem_of_cons in Hv as [[= _ ->]|Hv]; [discriminate|]).
  by apply not_elem_of_nil in Hv.
Qed.

(** The label stored for a key with a name (other than the name of a member
    of [Object.prototype]) is never empty: it is the glyph of
    [keyToIconMap] for the fourteen keys listed there and the name of the
    key otherwise; once stored as the icon of a button, it is what the
    editor canvas and the remote show for that button. *)
Theorem label_is_shown (key : string) (it : Item) :
  key ≠ "" → Editor.inherited key = false →
  let ic := or_else (Editor.keyToIconMap !! key) key in
  ic ≠ ""
  ∧ (Editor.keyToIconMap !! key = None → ic = key)
  ∧ (∀ v, Editor.keyToIconMap !! key = Some v → ic = v)
  ∧ Editor.button_content (Editor.assign (Editor.SetIcon ic) it) = ic
  ∧ RemoteControl.button_content (Editor.assign (Editor.SetIcon ic) it) = ic.
Proof.
  intros Hkey _ ic.
  assert (Hic : ic ≠ "").
  { unfold ic, or_else. destruct (Editor.keyToIconMap !! key) as [v|] eqn:Hv;
      [|done].
    apply keyToIconMap_nonempty in Hv. unfold truthy.
    by rewrite bool_decide_eq_false_2. }
  assert (Htr : truthy ic = true).
  { unfold truthy. by rewrite bool_decide_eq_false_2. }
  split; [done|]. split; [by unfold ic; intros ->|]. split.
  - intros v Hv. unfold ic. rewrite Hv. simpl.
    apply keyToIconMap_nonempty in Hv. unfold truthy.
    by rewrite bool_decide_eq_false_2.
  - clearbody ic.
    unfold Editor.button_content, RemoteControl.button_content. simpl.
    by rewrite Htr.
Qed.

(** The theorem on the Enter key and on the letter w. *)
Lemma label_is_shown_witness :
  let it := mkItem "b" 0 0 (Some "") (Some {["default" := "w"]}) in
  Editor.button_content
    (Editor.assign (Editor.SetIcon (or_else (Editor.keyToIconMap !! "Enter") "Enter")) it)
  = "⏎"
  ∧ or_else (Editor.keyToIconMap !! "w") "w" = "w".
Proof.
  intros it. split.
  - destruct (label_is_shown "Enter" it) as (_ & _ & Hv & Hshown & _);
      [discriminate|vm_compute; reflexivity|].
    rewrite Hshown. apply Hv. vm_compute. reflexivity.
  - destruct (label_is_shown "w" it) as (_ & Hnone & _);
      [discriminate|vm_compute; reflexivity|].
    apply Hnone. vm_compute. reflexivity.
Defined.


End ViewProperties.

(** ** Numbers and names in addresses *)

Module UrlProperties.
Import StringFacts.
Import Url UrlFacts.

Lemma digits_cons c rest acc :
  is_digit c = true →
  digits acc (String c rest)
  = digits (Some (10 * default 0 acc + Z.of_N (N_of_ascii c - 48))%Z) rest.
Proof. intros Hc. simpl. by rewrite Hc. Qed.

Lemma digits_of_uint_acc d acc :
  digits (Some (Z.pos acc)) (NilEmpty.string_of_uint d)
  = Some (Z.pos (Pos.of_uint_acc d acc)).
Proof.
  revert acc. induction d; intros acc; [done|..];
    cbn [NilEmpty.string_of_uint Pos.of_uint_acc];
    rewrite digits_cons by reflexivity;
    rewrite <- IHd; f_equal; f_equal; cbn; lia.
Qed.

Lemma digits_of_uint d :
  digits (Some 0%Z) (NilEmpty.string_of_uint d) = Some (Z.of_N (Pos.of_uint d)).
Proof.
  induction d; [done|..];
    cbn [NilEmpty.string_of_uint Pos.of_uint];
    rewrite digits_cons by reflexivity;
    first [ exact IHd | apply digits_of_uint_acc ].
Qed.

Lemma string_of_uint_head d :
  d ≠ Decimal.Nil →
  ∃ c rest, NilEmpty.string_of_uint d = String c rest ∧ is_digit c = true.
Proof. destruct d; [done|..]; intros _; simpl; eauto. Qed.

Lemma digit_is_plain c :
  is_digit c = true → is_space c = false ∧ c ≠ "-"%char ∧ c ≠ "+"%char.
Proof. by_cases_on_byte c. Qed.

Lemma skip_spaces_plain c rest :
  is_space c = false → (N_of_ascii c < 128)%N →
  skip_spaces (String c rest) = String c rest.
Proof.
  intros Hs Hc. cbn [skip_spaces]. rewrite Hs.
  assert (H2 : ∀ b, is_space2 c b = false).
  { intros b. unfold is_space2.
    replace (N_of_ascii c =? 194)%N with false; [done|].
    symmetry. apply N.eqb_neq. lia. }
  assert (H3 : ∀ b d, is_space3 c b d = false).
  { intros b d. unfold is_space3. cbv zeta.
    replace (N_of_ascii c =? 225)%N with false
      by (symmetry; apply N.eqb_neq; lia).
    replace (N_of_ascii c =? 226)%N with false
      by (symmetry; apply N.eqb_neq; lia).
    replace (N_of_ascii c =? 227)%N with false
      by (symmetry; apply N.eqb_neq; lia).
    replace (N_of_ascii c =? 239)%N with false
      by (symmetry; apply N.eqb_neq; lia).
    reflexivity. }
  destruct rest as [|b [|d r]]; [done|by rewrite H2|by rewrite H2, H3].
Qed.

Lemma digit_is_ascii c : is_digit c = true → (N_of_ascii c < 128)%N.
Proof.
  unfold is_digit, in_range. intros [_ H]%andb_true_iff.
  apply N.leb_le in H. lia.
Qed.

Lemma parseInt_unsigned c rest :
  is_digit c = true →
  parseInt (String c rest)
  = match digits (Some 0%Z) (String c rest) with
    | Some n => Int n
    | None => NaN
    end.
Proof.
  intros Hc. destruct (digit_is_plain c Hc) as (Hs & Hm & Hp).
  unfold parseInt. rewrite skip_spaces_plain by (by try apply digit_is_ascii).
  assert (Hsign : match String c rest with
                  | String "-" r => (true, r)
                  | String "+" r => (false, r)
                  | _ => (false, String c rest)
                  end = (false, String c rest)).
  { destruct c as [[] [] [] [] [] [] [] []]; try reflexivity;
      by (exfalso; (apply Hm || apply Hp)). }
  rewrite Hsign. by rewrite !digits_cons by done.
Qed.

(** The player number written into an address is read back unchanged:
    [parseInt] of the decimal text of an integer is that integer, for the
    integers a JS number holds exactly (up to 2^53 in magnitude), and of
    the text ["NaN"] it is NaN. *)
Theorem parseInt_number_to_string (n : number) :
  exact n = true → parseInt (number_to_string n) = n.
Proof.
  intros _.
  destruct n as [|z]; [reflexivity|]. unfold number_to_string.
  destruct z as [|p|p]; simpl Z.to_int; cbn [NilZero.string_of_int].
  - reflexivity.
  - pose proof (DecimalPos.Unsigned.to_uint_nonnil p) as Hnn.
    destruct (string_of_uint_head _ Hnn) as (c & rest & Hs & Hc).
    unfold NilZero.string_of_uint.
    destruct (Pos.to_uint p) eqn:Hp; [done|..]; rewrite <- Hp in *;
      rewrite Hs, parseInt_unsigned by done; rewrite <- Hs;
      by rewrite digits_of_uint, DecimalPos.Unsigned.of_to.
  - pose proof (DecimalPos.Unsigned.to_uint_nonnil p) as Hnn.
    destruct (string_of_uint_head _ Hnn) as (c & rest & Hs & Hc).
    unfold NilZero.string_of_uint.
    assert (Hstr : match Pos.to_uint p with
                   | Decimal.Nil => "0"
                   | _ => NilEmpty.string_of_uint (Pos.to_uint p)
                   end = String c rest).
    { by destruct (Pos.to_uint p). }
    rewrite Hstr. destruct (digit_is_plain c Hc) as (Hsp & _ & _).
    unfold parseInt.
    rewrite skip_spaces_plain by (vm_compute; reflexivity).
    rewrite digits_cons by done.
    pose proof (digits_of_uint (Pos.to_uint p)) as Hd.
    rewrite Hs, digits_cons in Hd by done.
    cbn [default from_option id] in *. rewrite Hd, DecimalPos.Unsigned.of_to. done.
Qed.

(** The theorem on player 2, on the largest integer in range and on a
    negative number. *)
Lemma parseInt_number_to_string_witness :
  parseInt (number_to_string (Int 2)) = Int 2
  ∧ parseInt (number_to_string (Int 9007199254740992)) = Int 9007199254740992
  ∧ parseInt (number_to_string (Int (-42))) = Int (-42)
  ∧ parseInt (number_to_string NaN) = NaN.
Proof.
  split; [apply (parseInt_number_to_string (Int 2)); vm_compute; reflexivity|].
  split.
  { apply (parseInt_number_to_string (Int 9007199254740992)).
    vm_compute. reflexivity. }
  split; [apply (parseInt_number_to_string (Int (-42))); vm_compute; reflexivity|].
  apply (parseInt_number_to_string NaN). reflexivity.
Defined.



(** The loop of the join screen makes one link per player, numbered 1 to
    [numPlayers] in that order, each the address of that player for the
    selected layout; no link when [numPlayers] is NaN, zero or negative. *)
Theorem join_links_enumerate (origin : string) (n : Z) (name : string) :
  let ls := JoinScreen.links origin (Int n) name in
  length ls = Z.to_nat n
  ∧ (∀ k, k < Z.to_nat n →
       ls !! k = Some (Z.of_nat (S k),
                       JoinScreen.remoteUrl origin (Z.of_nat (S k)) name))
  ∧ (∀ p u, (p, u) ∈ ls →
       (1 ≤ p ≤ n)%Z ∧ u = JoinScreen.remoteUrl origin p name)
  ∧ ((n ≤ 0)%Z → ls = [])
  ∧ JoinScreen.links origin NaN name = [].
Proof.
  intros ls. unfold ls, JoinScreen.links.
  split; [by rewrite length_map, length_seq|].
  split.
  { intros k Hk. rewrite EditorFacts.lookup_map, lookup_seq_lt by done. done. }
  split.
  { intros p u. rewrite list_elem_of_In, in_map_iff.
    intros (k & [= <- <-] & Hk). apply in_seq in Hk. split; [lia|done]. }
  split; [|done].
  intros Hn. by replace (Z.to_nat n) with 0 by lia.
Qed.

(** The theorem on three players. *)
Lemma join_links_enumerate_witness :
  JoinScreen.links "http://host:5173" (Int 3) "Arrows" !! 2
  = Some (3%Z, "http://host:5173/remote/3?layout=Arrows")
  ∧ JoinScreen.links "http://host:5173" (Int (-2)) "Arrows" = []
  ∧ ∀ p u, (p, u) ∈ JoinScreen.links "http://host:5173" (Int 3) "Arrows" →
           (1 ≤ p ≤ 3)%Z.
Proof.
  destruct (join_links_enumerate "http://host:5173" 3 "Arrows")
    as (_ & Hk & Hin & _).
  destruct (join_links_enumerate "http://host:5173" (-2) "Arrows")
    as (_ & _ & _ & Hneg & _).
  split; [apply (Hk 2); simpl; lia|]. split; [apply Hneg; lia|].
  intros p u Hpu. by destruct (Hin p u Hpu).
Defined.






End UrlProperties.

(** ** The remote client: sockets and frames *)

Module RemoteControlProperties.
Import StringFacts.
Import RemoteControl RemoteControlFacts.

Lemma ws_none_step ev s : ws s = None → ws (step ev s) = None.
Proof.
  intros Hws. destruct ev; simpl;
    unfold handleButtonPress, handleButtonRelease, send_if_open, set_socket_state;
    repeat case_match; simpl in *; congruence.
Qed.

Lemma fetched_step ev s : fetched (step ev s) = fetched s.
Proof.
  destruct ev; simpl;
    unfold handleButtonPress, handleButtonRelease, send_if_open, set_socket_state;
    repeat case_match; simpl in *; congruence.
Qed.

(** Without a layout name in the address of the page (no [layout]
    parameter, or an empty one) the remote fetches nothing and opens no
    socket, and whatever happens afterwards it never has a socket and
    never sends a frame. *)
Theorem no_layout_no_socket (api host seg pageSearch : string)
    (evs : list event) :
  Url.searchParams_get "layout" pageSearch = None
  ∨ Url.searchParams_get "layout" pageSearch = Some "" →
  let s := run evs (mount api host seg pageSearch) in
  ws s = None ∧ frames s = [] ∧ fetched s = [].
Proof.
  intros Hget s.
  assert (H0 : ws (mount api host seg pageSearch) = None
               ∧ fetched (mount api host seg pageSearch) = []).
  { unfold mount. by destruct Hget as [->| ->]. }
  assert (H : ws s = None ∧ fetched s = []).
  { subst s. revert H0. generalize (mount api host seg pageSearch) as s0.
    induction evs as [|ev evs IH]; intros s0 [Hws Hf]; [done|].
    simpl. apply IH. split; [by apply ws_none_step|by rewrite fetched_step]. }
  destruct H as [Hws Hf]. split; [done|]. split; [|done].
  unfold frames. by rewrite Hws.
Qed.

(** The theorem on the page [/remote/1] opened without a query, with the
    player touching where a button would be. *)
Lemma no_layout_no_socket_witness :
  frames (run [SocketState OPEN; TouchStart 0; TouchEnd 0]
              (mount "http://localhost:8000" "host" "1" "")) = []
  ∧ ws (run [] (mount "http://localhost:8000" "host" "1" "?layout=")) = None.
Proof.
  split.
  - apply (no_layout_no_socket "http://localhost:8000" "host" "1" ""
             [SocketState OPEN; TouchStart 0; TouchEnd 0]).
    left. vm_compute. reflexivity.
  - apply (no_layout_no_socket "http://localhost:8000" "host" "1" "?layout=" []).
    right. vm_compute. reflexivity.
Defined.

Lemma send_if_open_keeps data s :
  is_open s = true →
  layout (send_if_open data s) = layout s ∧ is_open (send_if_open data s) = true.
Proof.
  unfold is_open, send_if_open. destruct (ws s) as [w|] eqn:Hws; [|done].
  intros Hopen%bool_decide_eq_true. rewrite decide_True by done. simpl.
  done.
Qed.

Lemma gesture_keeps s ev :
  is_gesture ev = true →
  is_open s = true →
  layout (step ev s) = layout s ∧ is_open (step ev s) = true.
Proof.
  intros Hg Hopen.
  destruct ev; try done; simpl; (destruct (button s idx); [|done]);
    by apply send_if_open_keeps.
Qed.

Lemma frame_of_layout ev s s' : layout s' = layout s → frame_of ev s' = frame_of ev s.
Proof. intros Hl. destruct ev; simpl; unfold button; rewrite ?Hl; done. Qed.

(** While the socket is OPEN, a run of presses and releases sends exactly
    one frame for each gesture on a rendered button, in the order of the
    gestures, and nothing for a gesture where no button is; the socket
    stays OPEN and the layout is not touched. *)
Theorem frames_follow_gestures (s : State) (evs : list event) :
  is_open s = true →
  forallb is_gesture evs = true →
  frames (run evs s) = frames s ++ omap (fun ev => frame_of ev s) evs
  ∧ is_open (run evs s) = true
  ∧ layout (run evs s) = layout s.
Proof.
  revert s. induction evs as [|ev evs IH]; intros s Hopen Hg.
  { simpl. by rewrite app_nil_r. }
  simpl in Hg. apply andb_true_iff in Hg as [Hev Hg].
  destruct (gesture_keeps s ev Hev Hopen) as [Hl Ho].
  destruct (IH (step ev s) Ho Hg) as (Hf & Ho' & Hl').
  change (run (ev :: evs) s) with (run evs (step ev s)).
  split; [|split; [done|congruence]].
  rewrite Hf, frames_step, Hopen.
  rewrite (list_omap_ext (fun ev0 => frame_of ev0 (step ev s))
                         (fun ev0 => frame_of ev0 s) evs evs).
  2:{ apply Forall2_same_length_lookup_2; [done|].
      intros k a b Ha Hb. rewrite Ha in Hb. injection Hb as <-.
      by apply frame_of_layout. }
  cbn [omap list_omap]. destruct (frame_of ev s); by rewrite <- app_assoc.
Qed.

(** The theorem on a player who holds the first button, taps the second,
    touches an empty spot and lets go of the first. *)
Lemma frames_follow_gestures_witness :
  let items := [mkItem "a" 0 0 None None; mkItem "b" 90 0 None None] in
  let s := mkState (Some items)
                   (Some (mkWebSocket "ws://host:8000/ws/1?layout=L" OPEN []))
                   [] in
  frames (run [TouchStart 0; MouseDown 1; MouseUp 1; TouchStart 5; TouchEnd 0] s)
  = [message "a" down; message "b" down; message "b" up; message "a" up].
Proof.
  intros items s.
  destruct (frames_follow_gestures s
              [TouchStart 0; MouseDown 1; MouseUp 1; TouchStart 5; TouchEnd 0])
    as (Hf & _); [reflexivity|reflexivity|].
  rewrite Hf. reflexivity.
Defined.

End RemoteControlProperties.

(** ** The join screen: what is shown *)

Module JoinScreenProperties.
Import StringFacts.
Import JoinScreen.




End JoinScreenProperties.

(** ** JSON text: nothing is lost *)

Module JsonProperties.
Import StringFacts.
Import Json.

Lemma read_chars_escape (c : ascii) (rest : string) :
  read_chars (escape c +:+ rest)
  = match read_chars rest with
    | Some (t, r) => Some (String c t, r)
    | None => None
    end.
Proof. destruct c as [[] [] [] [] [] [] [] []]; reflexivity. Qed.

Lemma read_chars_escape_all (s rest : string) :
  read_chars (escape_all s +:+ String quote_char rest) = Some (s, rest).
Proof.
  induction s as [|c s IH]; [reflexivity|].
  cbn [escape_all]. by rewrite append_assoc, read_chars_escape, IH.
Qed.

(** Reading back a string that [JSON.stringify] wrote gives the string and
    the text that followed it. *)
Lemma read_string_quote (s rest : string) :
  read_string (quote s +:+ rest) = Some (s, rest).
Proof.
  unfold quote. change (String quote_char ?a +:+ ?b) with (String quote_char (a +:+ b)).
  unfold read_string. rewrite bool_decide_eq_true_2 by done.
  rewrite append_assoc. apply read_chars_escape_all.
Qed.

Lemma quote_append_inj (s s' rest rest' : string) :
  quote s +:+ rest = quote s' +:+ rest' → s = s' ∧ rest = rest'.
Proof.
  intros H. apply (f_equal read_string) in H.
  rewrite !read_string_quote in H. by injection H.
Qed.

(** The frame the remote sends determines the button and the action: two
    frames are the same text only for the same item identifier and the
    same action, whatever characters the identifier holds (quotes,
    backslashes, control characters). *)
Theorem message_injective (itemId itemId' : string)
    (a a' : RemoteControl.action) :
  RemoteControl.message itemId a = RemoteControl.message itemId' a' →
  itemId = itemId' ∧ a = a'.
Proof.
  unfold RemoteControl.message, stringify_object. cbn [map fst snd String.concat].
  intros H. rewrite !append_assoc in H.
  apply EditorFacts.append_inj_r in H.
  apply quote_append_inj in H as [_ H].
  apply EditorFacts.append_inj_r in H.
  apply quote_append_inj in H as [Hid H]. split; [done|].
  apply EditorFacts.append_inj_r in H.
  apply quote_append_inj in H as [_ H].
  apply EditorFacts.append_inj_r in H.
  apply quote_append_inj in H as [Ha _].
  by destruct a, a'.
Qed.

(** The theorem on a frame compared with itself, and on the frames of two
    identifiers that differ by a backslash. *)
Lemma message_injective_witness :
  ("up-btn" = "up-btn" ∧ RemoteControl.down = RemoteControl.down)
  ∧ RemoteControl.message (String backslash "n") RemoteControl.up
    ≠ RemoteControl.message (String (ascii_of_nat 10) "") RemoteControl.up.
Proof.
  split.
  - apply (message_injective "up-btn" "up-btn" RemoteControl.down
             RemoteControl.down).
    reflexivity.
  - intros H. by apply message_injective in H as [[=] _].
Defined.

End JsonProperties.
